(** * Verification of the chat client's message/attachment pipeline

    Shallow embedding of [src/main.py]: the image normalizer
    ([convert_image_to_base64]), the message assembler
    ([prepare_messages]) and the completion client ([stream_response]).

    Python objects that the code mutates (the message dicts) live in an
    explicit store; the libraries the code calls (Pillow, pandas, the
    base64 module, the endpoint SDK, Streamlit's widgets) are interfaces
    whose operations are parameters of the development. *)

From Stdlib Require Import ZArith QArith String Ascii List Lia Bool.
From Stdlib.Strings Require Import Byte.
From stdpp Require Import base list strings.
From Equations Require Import Equations.

Close Scope Q_scope.
Open Scope string_scope.
Open Scope list_scope.
Open Scope Z_scope.

(** ** Python values shared by the three components *)

(** [str(e)] of a raised exception: every handler of the program only
    formats the exception into a message. *)
Definition exn := string.

(** A call that may raise. *)
Inductive pyresult (A : Type) : Type :=
| Returns (a : A)
| Raises (e : exn).
Arguments Returns {A} a.
Arguments Raises {A} e.

(** What the program shows through Streamlit instead of crashing. *)
Inductive st_event : Type :=
| st_warning (msg : string)
| st_error (msg : string).

(** Truthiness of a Python [str]: only the empty string is falsy. *)
Definition truthy (s : string) : bool :=
  match s with EmptyString => false | String _ _ => true end.

(** The upload widget's file object: its MIME type and its raw bytes. The
    libraries that read it ([Image.open], [pandas.read_excel]) rewind it
    first, so reading is a function of the bytes and the object is a
    value here. *)
Record UploadedFile : Type := mkUploadedFile {
  name : string;
  type : string;
  getvalue : list byte
}.

(** ** Pillow as an interface *)

(** A decoded image: the attributes the program reads ([format], [width],
    [height]) and the pixel store [im], opaque to the program. [format] is
    set by [Image.open] only; images derived by [convert] or [resize]
    have [format = None]. *)
Record Image (Px : Type) : Type := mkImage {
  format : option string;
  mode : string;
  width : Z;
  height : Z;
  im : Px
}.
Arguments mkImage {Px} _ _ _ _ _.
Arguments format {Px} _.
Arguments mode {Px} _.
Arguments width {Px} _.
Arguments height {Px} _.
Arguments im {Px} _.

Inductive Resampling : Type := NEAREST | BILINEAR | BICUBIC | LANCZOS.

(** The operations of Pillow and of the [base64] module that
    [convert_image_to_base64] calls. The codecs are not part of the
    repository: they are the parameters of the normalizer. *)
Class Imaging : Type := {
  Px : Type;
  (** [Image.open(file)]: decodes the file, or raises. *)
  Image_open : UploadedFile -> pyresult (Image Px);
  (** the pixel work of [image.convert(mode)] *)
  px_convert : string -> string -> Px -> Px;
  (** the pixel work of [image.resize((w, h), resample)] *)
  px_resize : Resampling -> Z * Z -> Image Px -> Px;
  (** [image.save(fp, format=.., quality=.., optimize=..)] into a fresh
      [io.BytesIO]: the bytes written, or an exception. *)
  Image_save : string -> option Z -> bool -> Image Px -> pyresult (list byte);
  (** [base64.b64encode(b).decode('utf-8')] *)
  b64encode : list byte -> string;
  (** An encoder writes at least the signature of its format, and the
      base64 text of a non-empty byte string is not empty. *)
  Image_save_nonempty : forall fmt quality optimize image img_bytes,
    Image_save fmt quality optimize image = Returns img_bytes -> img_bytes <> [];
  b64encode_nonempty : forall img_bytes, img_bytes <> [] -> b64encode img_bytes <> ""
}.

Section Normalizer.
Context `{PIL : Imaging}.

(** [image.convert(m)]: same size, new mode, a new image object. *)
Definition convert (image : Image Px) (m : string) : Image Px :=
  mkImage None m (width image) (height image) (px_convert (mode image) m (im image)).

(** [image.resize((w, h), resample)]: the requested size, same mode. *)
Definition resize (image : Image Px) (size : Z * Z) (resample : Resampling) : Image Px :=
  mkImage None (mode image) (fst size) (snd size) (px_resize resample size image).

(** [int(x)] on a non-integer number truncates toward zero. *)
Definition py_int (x : Q) : Z := Z.quot (Qnum x) (Zpos (Qden x)).

(** [img_bytes.tell()] after [save] wrote into the fresh buffer. *)
Definition tell (img_bytes : list byte) : Z := Z.of_nat (length img_bytes).

(** The locals of [convert_image_to_base64] (lines 65-68). Python computes
    [width * 0.9] and [tell * 4 / 3] in binary floating point; for the
    integers an image can have (below 2^31) truncation and the comparison
    with an integer budget give the same answer as on the exact
    rationals used here. *)
Definition initial_quality : Z := 90.
Definition resize_factor : Q := 9 # 10.
Definition min_quality : Z := 20.
Definition min_dimension : Z := 200.

(** [img_format in ["JPEG", "JPG"]] *)
Definition is_jpeg (img_format : option string) : bool :=
  match img_format with
  | Some f => String.eqb f "JPEG" || String.eqb f "JPG"
  | None => false
  end.

(** [img_format == "PNG"] *)
Definition is_png (img_format : option string) : bool :=
  match img_format with
  | Some f => String.eqb f "PNG"
  | None => false
  end.

(** Line 82: [(img_bytes.tell() * 4 / 3) <= max_size_bytes]. *)
Definition fits (img_bytes : list byte) (max_size_bytes : Z) : bool :=
  Qle_bool (inject_Z (tell img_bytes) * 4 / 3)%Q (inject_Z max_size_bytes).

(** The variables the loop updates. *)
Record loop_state : Type := mkState {
  image : Image Px;
  quality : Z
}.

(** How one pass through the body of [while True] (lines 71-95) ends. *)
Inductive iteration : Type :=
| Break (image' : Image Px) (img_bytes : list byte)   (* line 83 *)
| LowerQuality (st : loop_state)                      (* line 86, then loop *)
| Shrink (st : loop_state)                            (* line 95, then loop *)
| CannotCompress                                      (* lines 92-93 *)
| Raised (e : exn).                                   (* [save] raised *)

(** Lines 73-80: the image that is saved (converted to RGB first unless
    the source is JPEG or PNG; the conversion rebinds [image]) and the
    arguments of [save]. *)
Definition image_to_save (img_format : option string) (image : Image Px) : Image Px :=
  if is_jpeg img_format then image
  else if negb (is_png img_format) then convert image "RGB" else image.

Definition save_format (img_format : option string) : string :=
  if is_jpeg img_format then "JPEG"
  else if is_png img_format then "PNG" else "JPEG".

Definition save_quality (img_format : option string) (quality : Z) : option Z :=
  if is_jpeg img_format then Some quality
  else if negb (is_png img_format) then Some quality else None.

(** Lines 71-95, one pass. *)
Definition loop_body (img_format : option string) (max_size_bytes : Z)
    (st : loop_state) : iteration :=
  let image := image_to_save img_format (image st) in
  match Image_save (save_format img_format) (save_quality img_format (quality st))
                   true image with
  | Raises e => Raised e
  | Returns img_bytes =>
      if fits img_bytes max_size_bytes then Break image img_bytes
      else if is_jpeg img_format && (quality st >? min_quality) then
        LowerQuality (mkState image (quality st - 10))
      else
        let new_width := py_int (inject_Z (width image) * resize_factor)%Q in
        let new_height := py_int (inject_Z (height image) * resize_factor)%Q in
        if (new_width <? min_dimension) || (new_height <? min_dimension) then
          CannotCompress
        else
          Shrink (mkState (resize image (new_width, new_height) LANCZOS) (quality st))
  end.

(** How the loop is left. *)
Inductive loop_exit : Type :=
| Encoded (image' : Image Px) (img_bytes : list byte)
| GaveUp
| Failed (e : exn).

(** The quantity that every pass that loops again decreases: the distance
    of the quality from its floor plus the width. *)
Definition loop_measure (st : loop_state) : nat :=
  (Z.to_nat (quality st - min_quality) + Z.to_nat (width (image st)))%nat.

(** *** Termination of the loop

    A pass that loops again decreases [loop_measure]: lowering the quality
    needs a quality above the floor, and a shrunk width that passes the
    floor is smaller than the width. *)
Lemma py_int_resize (w : Z) : py_int (inject_Z w * resize_factor)%Q = Z.quot (w * 9) 10.
Proof. reflexivity. Qed.

Lemma shrink_lt (w : Z) : min_dimension <= Z.quot (w * 9) 10 -> Z.quot (w * 9) 10 < w.
Proof.
  unfold min_dimension. intros H.
  destruct (Z_lt_le_dec w 0) as [Hneg|Hpos].
  - exfalso. assert (Z.quot (w * 9) 10 <= 0); [|lia].
    apply Z.quot_le_upper_bound; lia.
  - rewrite Z.quot_div_nonneg in * by lia.
    assert (w * 9 / 10 <= w * 9 / 9) by (apply Z.div_le_compat_l; lia).
    rewrite Z.div_mul in * by lia.
    assert (w <> w * 9 / 10); [|lia].
    intros Heq. assert (w * 9 / 10 * 10 <= w * 9) by (pose proof (Z.mul_div_le (w * 9) 10); lia).
    lia.
Qed.

Lemma loop_body_lower_quality img_format max st st' :
  loop_body img_format max st = LowerQuality st' ->
  (loop_measure st' < loop_measure st)%nat.
Proof.
  unfold loop_body, loop_measure.
  destruct (Image_save _ _ _ _); [|discriminate].
  destruct (fits _ _); [discriminate|].
  destruct (is_jpeg img_format && (quality st >? min_quality)) eqn:Hq.
  - intros [= <-]. apply andb_prop in Hq as [Hj Hq]. simpl.
    unfold image_to_save. rewrite Hj.
    unfold min_quality in *. lia.
  - destruct (_ || _); discriminate.
Qed.

Lemma loop_body_shrink img_format max st st' :
  loop_body img_format max st = Shrink st' ->
  (loop_measure st' < loop_measure st)%nat.
Proof.
  unfold loop_body, loop_measure.
  destruct (Image_save _ _ _ _); [|discriminate].
  destruct (fits _ _); [discriminate|].
  destruct (is_jpeg img_format && (quality st >? min_quality)); [discriminate|].
  rewrite !py_int_resize.
  destruct (_ || _) eqn:Hdim; [discriminate|].
  intros [= <-]. simpl.
  apply orb_false_elim in Hdim as [Hw _].
  apply Z.ltb_ge in Hw. pose proof (shrink_lt _ Hw) as Hlt.
  assert (width (image_to_save img_format (image st)) = width (image st)) as Hsame.
  { unfold image_to_save. destruct (is_jpeg _); [done|]. by destruct (negb _). }
  rewrite Hsame in *. unfold min_dimension in *. lia.
Qed.

(** A value together with the equation that recalls where it came from. *)
Definition inspect {A : Type} (a : A) : {b : A | a = b} := exist _ a eq_refl.

(** Lines 70-95: [while True]. The loop has no counter; it is defined by
    recursion on [loop_measure]. *)
Equations loop (img_format : option string) (max_size_bytes : Z) (st : loop_state)
  : loop_exit by wf (loop_measure st) lt :=
loop img_format max_size_bytes st with inspect (loop_body img_format max_size_bytes st) := {
  | exist _ (Break image' img_bytes) _ => Encoded image' img_bytes
  | exist _ (LowerQuality st') Heq => loop img_format max_size_bytes st'
  | exist _ (Shrink st') Heq => loop img_format max_size_bytes st'
  | exist _ CannotCompress _ => GaveUp
  | exist _ (Raised e) _ => Failed e }.
Next Obligation. eauto using loop_body_lower_quality. Qed.
Next Obligation. eauto using loop_body_shrink. Qed.

(** The two Streamlit messages of the normalizer. Strings hold the UTF-8
    bytes of the source's literals. *)
Definition cannot_compress_msg : string := "画像を十分に圧縮できませんでした。".
Definition image_error_prefix : string := "画像の処理中にエラーが発生しました: ".

(** Lines 57-101. The result is the returned value together with what was
    shown through Streamlit. *)
Definition convert_image_to_base64 (file : UploadedFile) (max_size_mb : Z)
  : option string * list st_event :=
  let max_size_bytes := max_size_mb * 1024 * 1024 in
  match Image_open file with
  | Raises e => (None, [st_error (image_error_prefix +:+ e)])
  | Returns image =>
      let img_format := format image in
      match loop img_format max_size_bytes (mkState image initial_quality) with
      | Encoded _ img_bytes => (Some (b64encode img_bytes), [])
      | GaveUp => (None, [st_warning cannot_compress_msg])
      | Failed e => (None, [st_error (image_error_prefix +:+ e)])
      end
  end.

(** The default of the parameter [max_size_mb]. *)
Definition default_max_size_mb : Z := 5.

(** *** The passes of one run, as a relation

    [runs fmt max st tr ex]: started in [st], the loop goes through the
    passes [tr] (each one either lowers the quality or shrinks the image)
    and is left with [ex]. *)
Inductive pass : Type := QualityPass | ShrinkPass.

Inductive runs (img_format : option string) (max_size_bytes : Z)
  : loop_state -> list pass -> loop_exit -> Prop :=
| runs_break st image' img_bytes :
    loop_body img_format max_size_bytes st = Break image' img_bytes ->
    runs img_format max_size_bytes st [] (Encoded image' img_bytes)
| runs_gave_up st :
    loop_body img_format max_size_bytes st = CannotCompress ->
    runs img_format max_size_bytes st [] GaveUp
| runs_failed st e :
    loop_body img_format max_size_bytes st = Raised e ->
    runs img_format max_size_bytes st [] (Failed e)
| runs_quality st st' tr ex :
    loop_body img_format max_size_bytes st = LowerQuality st' ->
    runs img_format max_size_bytes st' tr ex ->
    runs img_format max_size_bytes st (QualityPass :: tr) ex
| runs_shrink st st' tr ex :
    loop_body img_format max_size_bytes st = Shrink st' ->
    runs img_format max_size_bytes st' tr ex ->
    runs img_format max_size_bytes st (ShrinkPass :: tr) ex.

(** The passes of the run that starts in [st], computed with the loop. *)
Equations loop_trace (img_format : option string) (max_size_bytes : Z) (st : loop_state)
  : list pass by wf (loop_measure st) lt :=
loop_trace img_format max_size_bytes st
    with inspect (loop_body img_format max_size_bytes st) := {
  | exist _ (LowerQuality st') Heq => QualityPass :: loop_trace img_format max_size_bytes st'
  | exist _ (Shrink st') Heq => ShrinkPass :: loop_trace img_format max_size_bytes st'
  | exist _ (Break _ _) _ => []
  | exist _ CannotCompress _ => []
  | exist _ (Raised _) _ => [] }.
Next Obligation. eauto using loop_body_lower_quality. Qed.
Next Obligation. eauto using loop_body_shrink. Qed.

(** [passes fmt max st tr st']: the passes [tr], none of which leaves the
    loop, lead from [st] to [st']. *)
Inductive passes (img_format : option string) (max_size_bytes : Z)
  : loop_state -> list pass -> loop_state -> Prop :=
| passes_here st : passes img_format max_size_bytes st [] st
| passes_quality st st' tr st'' :
    loop_body img_format max_size_bytes st = LowerQuality st' ->
    passes img_format max_size_bytes st' tr st'' ->
    passes img_format max_size_bytes st (QualityPass :: tr) st''
| passes_shrink st st' tr st'' :
    loop_body img_format max_size_bytes st = Shrink st' ->
    passes img_format max_size_bytes st' tr st'' ->
    passes img_format max_size_bytes st (ShrinkPass :: tr) st''.

(** The bound on the number [n] of shrinking passes that start from a
    dimension [d]: the dimension after them, at most [d * (9/10)^n], is
    still at least the floor. *)
Definition shrink_bound (n : nat) (d : Z) : Prop :=
  n = 0%nat \/ min_dimension * 10 ^ Z.of_nat n <= d * 9 ^ Z.of_nat n.

(** What [convert_image_to_base64] returns and shows, by the way the loop
    is left. *)
Definition reported (ex : loop_exit) : option string * list st_event :=
  match ex with
  | Encoded _ img_bytes => (Some (b64encode img_bytes), [])
  | GaveUp => (None, [st_warning cannot_compress_msg])
  | Failed e => (None, [st_error (image_error_prefix +:+ e)])
  end.

End Normalizer.

(** ** Messages and the store of message dicts *)

(** The [content] of a message: a [str], or a list of typed blocks. The
    field is duck-typed in the source: the text block built on line 126
    holds whatever the content was. *)
Inductive Content : Type :=
| Text (s : string)
| Blocks (bs : list block)
with block : Type :=
| text_block (text : Content)
    (* {"type": "text", "text": ..} *)
| image_block (source_type media_type data : string).
    (* {"type": "image", "source": {"type": .., "media_type": .., "data": ..}} *)

(** A message dict [{"role": .., "content": ..}]. *)
Record message : Type := mkMessage {
  role : string;
  content : Content
}.

(** Dicts are mutable objects: a list of messages is a list of references
    into a store, and two lists may share a dict. The store is indexed by
    allocation order. *)
Abbreviation loc := nat (only parsing).
Abbreviation store := (list message) (only parsing).

(** What a list of references denotes in a store ([None] when a reference
    dangles, which no Python list does). *)
Definition view (σ : store) (refs : list loc) : option (list message) :=
  mapM (λ l : loc, σ !! l) refs.

(** Every reference of the list points into the store. *)
Definition valid_refs (σ : store) (refs : list loc) : Prop :=
  Forall (λ l : loc, (l < length σ)%nat) refs.

(** ** pandas as an interface *)
Class Pandas : Type := {
  DataFrame : Type;
  (** [pd.read_excel(file)] *)
  read_excel : UploadedFile -> pyresult DataFrame;
  (** [df.to_string(index=..)] *)
  to_string : DataFrame -> bool -> pyresult string
}.

Section Assembler.
Context `{PIL : Imaging} `{PD : Pandas}.

(** [role == "user"] *)
Definition is_user (d : message) : bool := String.eqb (role d) "user".

(** Lines 108-113: a user message is copied into a new dict, any other
    message is appended as the same object. *)
Fixpoint copy_history (σ : store) (messages : list loc) (prepared_messages : list loc)
  : option (store * list loc) :=
  match messages with
  | [] => Some (σ, prepared_messages)
  | msg :: rest =>
      match σ !! msg with
      | None => None
      | Some d =>
          if is_user d then
            let content := content d in
            copy_history (σ ++ [mkMessage (role d) content]) rest
                         (prepared_messages ++ [length σ])
          else
            copy_history σ rest (prepared_messages ++ [msg])
      end
  end.

(** Lines 121-134 and 141-150: [last_message = prepared_messages[-1]]; when
    its role is [user], its content is rebound, in place, to the text
    block of the old content followed by [attachment]. *)
Definition attach (σ : store) (prepared_messages : list loc) (attachment : block)
  : option store :=
  match last prepared_messages with
  | None => None
  | Some last_message =>
      match σ !! last_message with
      | None => None
      | Some d =>
          if is_user d then
            let last_content := content d in
            Some (<[last_message :=
                     mkMessage (role d) (Blocks [text_block last_content; attachment])]> σ)
          else Some σ
      end
  end.

(** [mime_type in ['application/vnd.ms-excel', ...]] (lines 136-137) *)
Definition is_excel (mime_type : string) : bool :=
  String.eqb mime_type "application/vnd.ms-excel"
  || String.eqb mime_type "application/vnd.openxmlformats-officedocument.spreadsheetml.sheet".

Definition excel_error_prefix : string := "Excelファイルの処理中にエラーが発生しました: ".

Definition newline : string := String (ascii_of_nat 10) EmptyString.

(** The text of line 149. *)
Definition fenced (df_string : string) : string :=
  "```" +:+ newline +:+ df_string +:+ newline +:+ "```".

(** Truthiness of a list. *)
Definition nonempty {A : Type} (l : list A) : bool :=
  match l with [] => false | _ :: _ => true end.

(** Lines 104-154. Given the store and the list of message references,
    returns the new list, the store after the call and what was shown
    through Streamlit; [None] only when a reference dangles. *)
Definition prepare_messages (σ : store) (messages : list loc)
    (uploaded_file : option UploadedFile)
  : option (list loc * store * list st_event) :=
  match copy_history σ messages [] with
  | None => None
  | Some (σ, prepared_messages) =>
      match uploaded_file with
      | None => Some (prepared_messages, σ, [])
      | Some file =>
          if nonempty prepared_messages then
            let mime_type := type file in
            if String.prefix "image/" mime_type then
              let (image_data, shown) := convert_image_to_base64 file default_max_size_mb in
              match image_data with
              | None => Some (prepared_messages, σ, shown)
              | Some data =>
                  if truthy data then
                    match attach σ prepared_messages (image_block "base64" mime_type data) with
                    | None => None
                    | Some σ => Some (prepared_messages, σ, shown)
                    end
                  else Some (prepared_messages, σ, shown)
              end
            else if is_excel mime_type then
              match read_excel file with
              | Raises e => Some (prepared_messages, σ, [st_error (excel_error_prefix +:+ e)])
              | Returns df =>
                  match to_string df false with
                  | Raises e =>
                      Some (prepared_messages, σ, [st_error (excel_error_prefix +:+ e)])
                  | Returns df_string =>
                      match attach σ prepared_messages (text_block (Text (fenced df_string))) with
                      | None => None
                      | Some σ => Some (prepared_messages, σ, [])
                      end
                  end
              end
            else Some (prepared_messages, σ, [])
          else Some (prepared_messages, σ, [])
      end
  end.

(** *** The assembled request, on message values

    What [prepare_messages] computes, told without the store: the
    properties below relate the two. *)

(** The message that line 124 (or line 144) leaves in a dict. *)
Definition rebound (attachment : block) (d : message) : message :=
  if is_user d
  then mkMessage (role d) (Blocks [text_block (content d); attachment])
  else d.

(** The messages with the attachment put into the last one. *)
Definition with_attachment (attachment : block) (ms : list message) : list message :=
  alter (rebound attachment) (pred (length ms)) ms.

(** What a file makes the assembler attach and show: lines 116-152
    without the store. *)
Definition attachment_of (file : UploadedFile) : option block * list st_event :=
  let mime_type := type file in
  if String.prefix "image/" mime_type then
    match convert_image_to_base64 file default_max_size_mb with
    | (Some data, shown) =>
        if truthy data then (Some (image_block "base64" mime_type data), shown)
        else (None, shown)
    | (None, shown) => (None, shown)
    end
  else if is_excel mime_type then
    match read_excel file with
    | Raises e => (None, [st_error (excel_error_prefix +:+ e)])
    | Returns df =>
        match to_string df false with
        | Raises e => (None, [st_error (excel_error_prefix +:+ e)])
        | Returns df_string => (Some (text_block (Text (fenced df_string))), [])
        end
    end
  else (None, []).

(** The request that a history denoting [ms] is assembled into, on
    message values. *)
Definition assembled (ms : list message) (uploaded_file : option UploadedFile)
  : list message * list st_event :=
  match uploaded_file with
  | None => (ms, [])
  | Some file =>
      if nonempty ms then
        match attachment_of file with
        | (Some attachment, shown) => (with_attachment attachment ms, shown)
        | (None, shown) => (ms, shown)
        end
      else (ms, [])
  end.

(** How a prepared reference shares with the history: a user message is
    a new object, any other message is the stored object itself. *)
Definition shares (σ σ' : store) (l l' : loc) : Prop :=
  exists d, σ !! l = Some d
    /\ if is_user d then (length σ <= l' < length σ')%nat else l' = l.

(** How a reference [l'] of the prepared list relates to the reference
    [l] it was made from: both denote the same dict value, and [l'] is a
    new object for a user message and the same object otherwise. *)
Definition copied (σ σ' : store) (l l' : loc) : Prop :=
  exists d, σ !! l = Some d /\ σ' !! l' = Some d
    /\ if is_user d then (length σ <= l' < length σ')%nat else l' = l.

End Assembler.

(** ** The completion client *)

(** The endpoint SDK: the response object and the one call the program
    makes. A request without tools is answered with text blocks. *)
Module Anthropic.
Record ContentBlock : Type := mkBlock { text : string }.
Record Message : Type := mkResponse { content : list ContentBlock }.
Class Client : Type := {
  client : Type;
  (** [client.messages.create(model=.., max_tokens=.., messages=..)] *)
  messages_create : client -> string -> Z -> list message -> pyresult Message
}.
End Anthropic.

Section Completion.
Context `{API : Anthropic.Client}.

Definition CLAUDE_MODEL : string := "claude-3-sonnet-20240229".

Definition response_error_prefix : string := "応答の取得中にエラーが発生しました: ".

(** Lines 40-54. [messages] is the request payload: what the prepared
    list denotes in the store when the request is serialised. *)
Definition stream_response (client : Anthropic.client) (messages : list message)
  : option string * list st_event :=
  match Anthropic.messages_create client CLAUDE_MODEL 4096 messages with
  | Raises e => (None, [st_error (response_error_prefix +:+ e)])
  | Returns response =>
      match Anthropic.content response with
      | first :: _ => (Some (Anthropic.text first), [])
      | [] => (None, [])
      end
  end.

End Completion.

(** ** The script: one run of [main]

    Streamlit runs [main] from the top on every interaction. What
    persists between runs is [st.session_state], here the list
    [st.session_state.messages] and the dicts it refers to; what a run
    reads is the state of the widgets. Of what a run draws, only the
    warnings and errors are kept: the transcript it renders (lines
    188-190, 196-197, 206) reads the state and changes nothing. *)

(** [anthropic.Anthropic(api_key=..)] *)
Class AnthropicSDK `{API : Anthropic.Client} : Type := {
  Anthropic_new : string -> pyresult Anthropic.client
}.

(** [st.session_state]: the dicts, and the key [messages] when it is set. *)
Record session : Type := mkSession {
  dicts : list message;
  history : option (list nat)
}.

(** What the widgets return in a run: the key field, the file uploader,
    the Clear button and the chat input. *)
Record widgets : Type := mkWidgets {
  api_key : string;
  uploaded_file : option UploadedFile;
  clear : bool;
  prompt : option string
}.

(** How a run ends: at the end of [main], at [st.stop()] or at
    [st.rerun()]. Both calls leave the script by an exception that is not
    an [Exception], so no handler of the program catches it. *)
Inductive script_end : Type := Finished | Stopped | Rerun.

Section Script.
Context `{PIL : Imaging} `{PD : Pandas} `{SDK : AnthropicSDK}.

Definition missing_key_msg : string := "API Keyが設定されていません。".
Definition init_error_prefix : string := "Anthropic クライアントの初期化に失敗しました: ".
Definition enter_key_msg : string := "APIキーを入力してください".

(** Lines 28-37: the client, or [None] when the script was stopped. *)
Definition init_anthropic_client (api_key : string)
  : option Anthropic.client * list st_event :=
  if negb (truthy api_key) then (None, [st_error missing_key_msg])
  else
    match Anthropic_new api_key with
    | Returns client => (Some client, [])
    | Raises e => (None, [st_error (init_error_prefix +:+ e)])
    end.

(** Lines 195-207: the turn of a prompt. The user's message is appended to
    the history first; the reply is appended when it is a non-empty text. *)
Definition chat_turn (client : Anthropic.client) (σ : store) (messages : list loc)
    (uploaded_file : option UploadedFile) (prompt : string)
  : option (store * list loc * list st_event) :=
  let messages := messages ++ [length σ] in
  let σ := σ ++ [mkMessage "user" (Text prompt)] in
  match prepare_messages σ messages uploaded_file with
  | None => None
  | Some (prepared_messages, σ, shown) =>
      match view σ prepared_messages with
      | None => None
      | Some request =>
          let (message, shown') := stream_response client request in
          match message with
          | Some text =>
              if truthy text then
                Some (σ ++ [mkMessage "assistant" (Text text)],
                      messages ++ [length σ], shown ++ shown')
              else Some (σ, messages, shown ++ shown')
          | None => Some (σ, messages, shown ++ shown')
          end
      end
  end.

(** Lines 157-210. *)
Definition main (s : session) (w : widgets)
  : option (session * list st_event * script_end) :=
  let messages := default [] (history s) in
  if clear w then Some (mkSession (dicts s) (Some []), [], Rerun)
  else if truthy (api_key w) then
    match init_anthropic_client (api_key w) with
    | (None, shown) => Some (mkSession (dicts s) (Some messages), shown, Stopped)
    | (Some client, shown) =>
        match prompt w with
        | None => Some (mkSession (dicts s) (Some messages), shown, Finished)
        | Some prompt =>
            if truthy prompt then
              match chat_turn client (dicts s) messages (uploaded_file w) prompt with
              | None => None
              | Some (σ, messages, shown') =>
                  Some (mkSession σ (Some messages), shown ++ shown', Finished)
              end
            else Some (mkSession (dicts s) (Some messages), shown, Finished)
        end
    end
  else Some (mkSession (dicts s) (Some messages), [st_warning enter_key_msg], Stopped).

(** What the stored history denotes. *)
Definition transcript (s : session) : option (list message) :=
  view (dicts s) (default [] (history s)).

(** The reply that is recorded: a non-empty text. *)
Definition recorded (reply : option string) : list message :=
  match reply with
  | Some text => if truthy text then [mkMessage "assistant" (Text text)] else []
  | None => []
  end.

(** What the script stores: a non-empty text, said by the user or by
    the assistant. *)
Definition plain (d : message) : Prop :=
  (role d = "user" \/ role d = "assistant")
  /\ exists text, content d = Text text /\ truthy text = true.

End Script.

(** ** Small instances of the interfaces, to run the pipeline

    For the codec a file is one letter: [J] is a 1000x800 JPEG and [W] an 800x600 WEBP,
    both with a payload of 8 bytes, [P] is a 200x200 PNG with a payload of
    4 MiB, and any other file does not decode. Saving writes a two-byte
    header (the format, and whether a quality was given) followed by the
    payload, scaled by the quality for JPEG. *)
Module Example.

Definition payload (format : string) (quality : option Z) (size : Z) : Z :=
  match quality with
  | Some q => if String.eqb format "JPEG" then size * q / 100 else size
  | None => size
  end.

Definition header (format : string) (quality : option Z) : list byte :=
  [ (if String.eqb format "JPEG" then "J" else if String.eqb format "PNG" then "P" else "?")%byte;
    match quality with Some _ => "q"%byte | None => "-"%byte end ].

Definition decode (file : UploadedFile) : pyresult (Image Z) :=
  match getvalue file with
  | [x4a] => Returns (mkImage (Some "JPEG") "RGB" 1000 800 8)
  | [x57] => Returns (mkImage (Some "WEBP") "RGBA" 800 600 8)
  | [x50] => Returns (mkImage (Some "PNG") "RGB" 200 200 (2 ^ 22))
  | _ => Raises "cannot identify image file"
  end.

Definition save (format : string) (quality : option Z) (optimize : bool)
    (image : Image Z) : pyresult (list byte) :=
  Returns (header format quality
           ++ repeat "000"%byte (Z.to_nat (payload format quality (im image)))).

(** One character per byte: a stand-in for the base64 alphabet. *)
Definition encode (img_bytes : list byte) : string :=
  string_of_list_ascii (map ascii_of_byte img_bytes).

Lemma save_nonempty format quality optimize image img_bytes :
  save format quality optimize image = Returns img_bytes -> img_bytes <> [].
Proof. intros [= <-]. discriminate. Qed.

Lemma encode_nonempty img_bytes : img_bytes <> [] -> encode img_bytes <> "".
Proof. by destruct img_bytes. Qed.

#[export] Instance codec : Imaging := {|
  Px := Z;
  Image_open := decode;
  px_convert := fun _ _ size => size;
  px_resize := fun _ new_size image =>
    im image * (fst new_size * snd new_size) / (width image * height image);
  Image_save := save;
  b64encode := encode;
  Image_save_nonempty := save_nonempty;
  b64encode_nonempty := encode_nonempty
|}.

(** A workbook is a list of rows of two one-byte cells. *)
Fixpoint rows (cells : list byte) : option (list (string * string)) :=
  match cells with
  | [] => Some []
  | a :: b :: rest =>
      option_map (cons (String (ascii_of_byte a) "", String (ascii_of_byte b) ""))
                 (rows rest)
  | [_] => None
  end.

#[export] Instance sheets : Pandas := {|
  DataFrame := list (string * string);
  read_excel := fun file =>
    match rows (getvalue file) with
    | Some df => Returns df
    | None => Raises "file is not a workbook"
    end;
  to_string := fun df _ =>
    Returns (String.concat newline (map (fun row => fst row +:+ "  " +:+ snd row) df))
|}.

(** An endpoint that answers with the blocks it was created with, or
    fails when it has none to answer with. *)
#[export] Instance endpoint : Anthropic.Client := {|
  Anthropic.client := option (list string);
  Anthropic.messages_create := fun client _ _ _ =>
    match client with
    | Some texts => Returns (Anthropic.mkResponse (map Anthropic.mkBlock texts))
    | None => Raises "authentication_error"
    end
|}.

(** The three images, and a file that is no image. *)
Definition small_jpeg : UploadedFile := mkUploadedFile "a.jpg" "image/jpeg" ["J"]%byte.
Definition small_webp : UploadedFile := mkUploadedFile "a.webp" "image/webp" ["W"]%byte.
Definition dense_png : UploadedFile := mkUploadedFile "a.png" "image/png" ["P"]%byte.
Definition corrupt : UploadedFile := mkUploadedFile "a.png" "image/png" []%byte.
Definition workbook : UploadedFile :=
  mkUploadedFile "a.xlsx" "application/vnd.openxmlformats-officedocument.spreadsheetml.sheet"
                 ["a"; "1"; "b"; "2"]%byte.

(** Two histories, as stores of dicts: one turn, and three turns. *)
Definition one_turn : list message := [mkMessage "user" (Text "describe")].
Definition three_turns : list message :=
  [mkMessage "user" (Text "hi"); mkMessage "assistant" (Text "hello");
   mkMessage "user" (Text "describe")].

End Example.

(** A constructor for the endpoint of [Example]: the key [sk-cat] gives a
    client that answers, the key [sk-down] one whose calls fail, and any
    other key is refused. *)
Module ExampleScript.
Import Example.

#[export] Instance sdk : AnthropicSDK := {|
  Anthropic_new := fun api_key =>
    if String.eqb api_key "sk-cat" then Returns (Some ["It is a cat."; "Anything else?"])
    else if String.eqb api_key "sk-down" then Returns None
    else Raises "invalid x-api-key"
|}.

(** A session with one finished turn. *)
Definition two_messages : session :=
  mkSession [mkMessage "user" (Text "hi"); mkMessage "assistant" (Text "hello")]
            (Some [0%nat; 1%nat]).

End ExampleScript.

(** * Properties of the image normalizer *)

Section NormalizerProperties.
Context `{PIL : Imaging}.

(** The loop, unfolded once. *)
Lemma loop_once img_format max st it :
  loop_body img_format max st = it ->
  loop img_format max st =
    match it with
    | Break image' img_bytes => Encoded image' img_bytes
    | LowerQuality st' => loop img_format max st'
    | Shrink st' => loop img_format max st'
    | CannotCompress => GaveUp
    | Raised e => Failed e
    end.
Proof.
  intros Hit. rewrite loop_unfold_eq. unfold loop_unfold.
  cut (forall s : {it' | loop_body img_format max st = it'},
         loop_unfold_clause_1 img_format max st s =
         match it with
         | Break image' img_bytes => Encoded image' img_bytes
         | LowerQuality st' => loop img_format max st'
         | Shrink st' => loop img_format max st'
         | CannotCompress => GaveUp
         | Raised e => Failed e
         end); [intros Hcut; apply Hcut|].
  intros [it' Hit']. assert (it = it') as -> by congruence.
  destruct it'; reflexivity.
Qed.

Lemma loop_trace_once img_format max st it :
  loop_body img_format max st = it ->
  loop_trace img_format max st =
    match it with
    | LowerQuality st' => QualityPass :: loop_trace img_format max st'
    | Shrink st' => ShrinkPass :: loop_trace img_format max st'
    | _ => []
    end.
Proof.
  intros Hit. rewrite loop_trace_unfold_eq. unfold loop_trace_unfold.
  cut (forall s : {it' | loop_body img_format max st = it'},
         loop_trace_unfold_clause_1 img_format max st s =
         match it with
         | LowerQuality st' => QualityPass :: loop_trace img_format max st'
         | Shrink st' => ShrinkPass :: loop_trace img_format max st'
         | _ => []
         end); [intros Hcut; apply Hcut|].
  intros [it' Hit']. assert (it = it') as -> by congruence.
  destruct it'; reflexivity.
Qed.

(** The loop is a run of the relation: it is left after the finitely many
    passes of [loop_trace]. *)
Lemma loop_runs_trace img_format max st :
  runs img_format max st (loop_trace img_format max st) (loop img_format max st).
Proof.
  remember (loop_measure st) as n eqn:Hn.
  revert st Hn. induction n as [n IH] using lt_wf_ind. intros st ->.
  destruct (loop_body img_format max st) as [i b|st'|st'| |e] eqn:Hit;
    rewrite (loop_once _ _ _ _ Hit), (loop_trace_once _ _ _ _ Hit).
  - by constructor.
  - eapply runs_quality; [done|].
    by eapply (IH _ (loop_body_lower_quality _ _ _ _ Hit)).
  - eapply runs_shrink; [done|].
    by eapply (IH _ (loop_body_shrink _ _ _ _ Hit)).
  - by constructor.
  - by constructor.
Qed.

Lemma loop_runs img_format max st :
  exists tr, runs img_format max st tr (loop img_format max st).
Proof. eexists. apply loop_runs_trace. Qed.

(** A run is determined by its start. *)
Lemma runs_deterministic img_format max st tr ex tr' ex' :
  runs img_format max st tr ex -> runs img_format max st tr' ex' ->
  tr = tr' /\ ex = ex'.
Proof.
  intros Hrun. revert tr' ex'.
  induction Hrun as [st i b H|st H|st e H|st st' tr ex H _ IH|st st' tr ex H _ IH];
    intros tr' ex' Hrun'; inversion Hrun'; subst; try congruence;
    try (split; congruence).
  - match goal with H' : loop_body _ _ st = LowerQuality ?s |- _ =>
      assert (s = st') by congruence; subst s end.
    destruct (IH _ _ ltac:(eassumption)) as [-> ->]. done.
  - match goal with H' : loop_body _ _ st = Shrink ?s |- _ =>
      assert (s = st') by congruence; subst s end.
    destruct (IH _ _ ltac:(eassumption)) as [-> ->]. done.
Qed.

(** Converting to RGB before saving keeps the size. *)
Lemma image_to_save_size img_format (i : Image Px) :
  width (image_to_save img_format i) = width i
  /\ height (image_to_save img_format i) = height i.
Proof.
  unfold image_to_save. destruct (is_jpeg _); [done|]. by destruct (negb _).
Qed.

(** The budget test on exact rationals, and on integers. *)
Lemma fits_spec img_bytes max :
  fits img_bytes max = true <-> (inject_Z (tell img_bytes) * 4 / 3 <= inject_Z max)%Q.
Proof. unfold fits. apply Qle_bool_iff. Qed.

Lemma fits_integers img_bytes max :
  fits img_bytes max = true <-> tell img_bytes * 4 <= 3 * max.
Proof.
  rewrite fits_spec. unfold Qle, Qdiv, Qmult, Qinv, inject_Z. simpl. lia.
Qed.

(** A shrunk dimension that passes the floor is at most nine tenths of
    the old one. *)
Lemma shrink_le (w : Z) :
  min_dimension <= Z.quot (w * 9) 10 -> 10 * Z.quot (w * 9) 10 <= 9 * w.
Proof.
  unfold min_dimension. intros H.
  destruct (Z_lt_le_dec w 0) as [Hneg|Hpos].
  - exfalso. assert (Z.quot (w * 9) 10 <= 0); [|lia].
    apply Z.quot_le_upper_bound; lia.
  - rewrite Z.quot_div_nonneg in * by lia.
    pose proof (Z.mul_div_le (w * 9) 10). lia.
Qed.

(** What a pass that lowers the quality did. *)
Lemma lower_quality_inv img_format max st st' :
  loop_body img_format max st = LowerQuality st' ->
  is_jpeg img_format = true /\ min_quality < quality st
  /\ st' = mkState (image st) (quality st - 10).
Proof.
  unfold loop_body.
  destruct (Image_save _ _ _ _); [|discriminate].
  destruct (fits _ _); [discriminate|].
  destruct (is_jpeg img_format && (quality st >? min_quality)) eqn:Hq.
  - intros [= <-]. apply andb_prop in Hq as [Hj Hq].
    unfold image_to_save. rewrite Hj. repeat split. lia.
  - destruct (_ || _); discriminate.
Qed.

(** What a pass that shrinks the image did. *)
Lemma shrink_inv img_format max st st' :
  loop_body img_format max st = Shrink st' ->
  is_jpeg img_format && (quality st >? min_quality) = false
  /\ quality st' = quality st
  /\ width (image st') = Z.quot (width (image st) * 9) 10
  /\ height (image st') = Z.quot (height (image st) * 9) 10
  /\ min_dimension <= width (image st') /\ min_dimension <= height (image st').
Proof.
  unfold loop_body.
  destruct (Image_save _ _ _ _); [|discriminate].
  destruct (fits _ _); [discriminate|].
  destruct (is_jpeg img_format && (quality st >? min_quality)); [discriminate|].
  rewrite !py_int_resize.
  destruct (image_to_save_size img_format (image st)) as [-> ->].
  destruct (_ || _) eqn:Hdim; [discriminate|].
  intros [= <-]. simpl.
  apply orb_false_elim in Hdim as [Hw Hh].
  apply Z.ltb_ge in Hw, Hh. done.
Qed.

Lemma shrink_bound_step n d :
  min_dimension <= Z.quot (d * 9) 10 ->
  shrink_bound n (Z.quot (d * 9) 10) -> shrink_bound (S n) d.
Proof.
  intros Hfloor Hn. right.
  pose proof (shrink_le d Hfloor) as Hle.
  rewrite Nat2Z.inj_succ, !Z.pow_succ_r by lia.
  destruct Hn as [->|Hn]; [simpl; lia|].
  assert (0 < 9 ^ Z.of_nat n) by (apply Z.pow_pos_nonneg; lia).
  nia.
Qed.

(** Once the quality cannot be lowered, every further pass shrinks. *)
Lemma shrink_phase img_format max st tr ex :
  runs img_format max st tr ex ->
  is_jpeg img_format && (quality st >? min_quality) = false ->
  exists n, tr = repeat ShrinkPass n
    /\ shrink_bound n (width (image st)) /\ shrink_bound n (height (image st)).
Proof.
  induction 1 as [st i b H|st H|st e H|st st' tr ex H _ IH|st st' tr ex H _ IH];
    intros Hq; try (exists 0%nat; repeat split; by left).
  - apply lower_quality_inv in H as (Hj & Hlt & _).
    rewrite Hj in Hq. simpl in Hq. lia.
  - apply shrink_inv in H as (_ & Hquality & Hw & Hh & Hwf & Hhf).
    rewrite Hquality in IH. destruct (IH Hq) as (n & -> & Hbw & Hbh).
    exists (S n). rewrite Hw in Hbw, Hwf. rewrite Hh in Hbh, Hhf.
    repeat split; by apply shrink_bound_step.
Qed.

(** A run lowers the quality first and shrinks afterwards. *)
Lemma quality_phase img_format max st tr ex :
  runs img_format max st tr ex ->
  exists lowered shrunk,
    tr = repeat QualityPass lowered ++ repeat ShrinkPass shrunk
    /\ (lowered = 0%nat \/ 10 * Z.of_nat lowered <= quality st - min_quality + 9)
    /\ shrink_bound shrunk (width (image st))
    /\ shrink_bound shrunk (height (image st)).
Proof.
  induction 1 as [st i b H|st H|st e H|st st' tr ex H Hrun IH|st st' tr ex H Hrun _];
    try (exists 0%nat, 0%nat; repeat split; by left).
  - destruct IH as (a & b & -> & Ha & Hbw & Hbh).
    apply lower_quality_inv in H as (Hj & Hlt & ->). simpl in *.
    exists (S a), b. repeat split; [|done..].
    right. unfold min_quality in *. lia.
  - pose proof (runs_shrink _ _ _ _ _ _ H Hrun) as Hfull.
    apply shrink_inv in H as (Hq & _).
    destruct (shrink_phase _ _ _ _ _ Hfull Hq) as (n & Htr & Hbw & Hbh).
    exists 0%nat, n. repeat split; [done|by left|done..].
Qed.

(** A run that ends with an encoding ended on a pass that took the
    [break] of line 83 with these bytes. *)
Lemma runs_encoded_final img_format max st tr image' img_bytes :
  runs img_format max st tr (Encoded image' img_bytes) ->
  exists final, loop_body img_format max final = Break image' img_bytes
    /\ fits img_bytes max = true.
Proof.
  remember (Encoded image' img_bytes) as ex eqn:Hex.
  induction 1 as [st i b H|st H|st e H|st st' tr ex H _ IH|st st' tr ex H _ IH];
    try discriminate; auto.
  injection Hex as <- <-. exists st. split; [done|].
  unfold loop_body in H. destruct (Image_save _ _ _ _) as [b'|]; [|discriminate].
  destruct (fits b' max) eqn:Hfits.
  - by injection H as _ <-.
  - destruct (_ && _); [discriminate|]. destruct (_ || _); discriminate.
Qed.

(** The bytes of a [break] are those that [save] wrote in that pass. *)
Lemma break_saved img_format max st image' img_bytes :
  loop_body img_format max st = Break image' img_bytes ->
  Image_save (save_format img_format) (save_quality img_format (quality st)) true
             (image_to_save img_format (image st)) = Returns img_bytes.
Proof.
  unfold loop_body. destruct (Image_save _ _ _ _) as [b|]; [|discriminate].
  destruct (fits b max).
  - by intros [= _ <-].
  - destruct (_ && _); [discriminate|]. destruct (_ || _); discriminate.
Qed.

Lemma convert_image_to_base64_runs file max_size_mb image tr ex :
  Image_open file = Returns image ->
  runs (format image) (max_size_mb * 1024 * 1024) (mkState image initial_quality) tr ex ->
  convert_image_to_base64 file max_size_mb = reported ex.
Proof.
  intros Hopen Hrun. unfold convert_image_to_base64. rewrite Hopen.
  destruct (loop_runs (format image) (max_size_mb * 1024 * 1024)
                      (mkState image initial_quality)) as [tr' Hloop].
  destruct (runs_deterministic _ _ _ _ _ _ _ Hrun Hloop) as [_ ->].
  by destruct (loop _ _ _).
Qed.

(** C1. For every file and every budget [convert_image_to_base64] returns:
    when the file does not decode it returns [None]; otherwise the loop is
    left after the passes of [loop_trace], which are [lowered] quality
    passes followed by [shrunk] shrinking passes, with [lowered <= 7] and
    [shrunk] bounded by [200 * (10/9)^shrunk <= min (width, height)], and
    it is left either with an encoding whose estimate [n * 4 / 3] fits
    the budget, which is returned, or with [None] (the CannotCompress
    warning, or the error of a failed save). *)
Theorem normalizer_terminates (file : UploadedFile) (max_size_mb : Z) :
  match Image_open file with
  | Raises e =>
      convert_image_to_base64 file max_size_mb
      = (None, [st_error (image_error_prefix +:+ e)])
  | Returns image =>
      let max_size_bytes := max_size_mb * 1024 * 1024 in
      let start := mkState image initial_quality in
      exists (lowered shrunk : nat),
        runs (format image) max_size_bytes start
             (loop_trace (format image) max_size_bytes start)
             (loop (format image) max_size_bytes start)
        /\ loop_trace (format image) max_size_bytes start
           = repeat QualityPass lowered ++ repeat ShrinkPass shrunk
        /\ (lowered <= 7)%nat
        /\ shrink_bound shrunk (width image)
        /\ shrink_bound shrunk (height image)
        /\ match loop (format image) max_size_bytes start with
           | Encoded _ img_bytes =>
               convert_image_to_base64 file max_size_mb = (Some (b64encode img_bytes), [])
               /\ (inject_Z (tell img_bytes) * 4 / 3 <= inject_Z max_size_bytes)%Q
           | GaveUp =>
               convert_image_to_base64 file max_size_mb
               = (None, [st_warning cannot_compress_msg])
           | Failed e =>
               convert_image_to_base64 file max_size_mb
               = (None, [st_error (image_error_prefix +:+ e)])
           end
  end.
Proof.
  destruct (Image_open file) as [image|e] eqn:Hopen.
  - intros max_size_bytes start.
    pose proof (loop_runs_trace (format image) max_size_bytes start) as Hrun.
    destruct (quality_phase _ _ _ _ _ Hrun) as (a & b & Htrace & Ha & Hbw & Hbh).
    exists a, b. repeat split; try done.
    + simpl in Ha. unfold initial_quality, min_quality in Ha. lia.
    + pose proof (convert_image_to_base64_runs _ _ _ _ _ Hopen Hrun) as Hret.
      destruct (loop _ _ _) as [i bytes| |e] eqn:Hex; simpl in Hret; [|done..].
      split; [done|].
      apply runs_encoded_final in Hrun as (_ & _ & Hfits). by apply fits_spec.
  - unfold convert_image_to_base64. by rewrite Hopen.
Qed.

(** A returned string is the encoding of the bytes of the pass that
    took the [break]. *)
Lemma convert_image_to_base64_returned file max_size_mb data shown :
  convert_image_to_base64 file max_size_mb = (Some data, shown) ->
  exists (image : Image Px) (final : loop_state) (image' : Image Px)
         (img_bytes : list byte),
    Image_open file = Returns image
    /\ loop_body (format image) (max_size_mb * 1024 * 1024) final
       = Break image' img_bytes
    /\ fits img_bytes (max_size_mb * 1024 * 1024) = true
    /\ data = b64encode img_bytes.
Proof.
  intros Hret. unfold convert_image_to_base64 in Hret.
  destruct (Image_open file) as [image|e] eqn:Hopen; [|discriminate].
  destruct (loop_runs (format image) (max_size_mb * 1024 * 1024)
                      (mkState image initial_quality)) as [tr Hrun].
  destruct (loop _ _ _) as [i bytes| |e]; [|discriminate..].
  injection Hret as <- <-.
  destruct (runs_encoded_final _ _ _ _ _ _ Hrun) as (final & Hfinal & Hfits).
  by exists image, final, i, bytes.
Qed.

(** C2. When [convert_image_to_base64] returns a string, the string is the
    encoding of the bytes [img_bytes] written by the last pass, and their
    count [n] satisfies [n * 4 / 3 <= max_size_mb * 1024 * 1024] (on
    integers: [4 * n <= 3 * budget]); the default budget is 5 MiB. *)
Theorem normalizer_success_fits_budget (file : UploadedFile) (max_size_mb : Z)
    (data : string) (shown : list st_event) :
  convert_image_to_base64 file max_size_mb = (Some data, shown) ->
  exists (image : Image Px) (final : loop_state) (image' : Image Px)
         (img_bytes : list byte),
    Image_open file = Returns image
    /\ loop_body (format image) (max_size_mb * 1024 * 1024) final
       = Break image' img_bytes
    /\ data = b64encode img_bytes
    /\ (inject_Z (tell img_bytes) * 4 / 3 <= inject_Z (max_size_mb * 1024 * 1024))%Q
    /\ tell img_bytes * 4 <= 3 * (max_size_mb * 1024 * 1024)
    /\ default_max_size_mb * 1024 * 1024 = 5242880.
Proof.
  intros Hret.
  destruct (convert_image_to_base64_returned _ _ _ _ Hret)
    as (image & final & image' & img_bytes & Hopen & Hfinal & Hfits & Hdata).
  exists image, final, image', img_bytes.
  repeat split; try done.
  - by apply fits_spec.
  - by apply fits_integers.
Qed.

(** A returned string is truthy: the test of line 120 passes for it. *)
Lemma convert_image_to_base64_truthy file max_size_mb data shown :
  convert_image_to_base64 file max_size_mb = (Some data, shown) -> truthy data = true.
Proof.
  intros Hret.
  destruct (convert_image_to_base64_returned _ _ _ _ Hret)
    as (image & final & image' & img_bytes & _ & Hfinal & _ & ->).
  apply break_saved, Image_save_nonempty, b64encode_nonempty in Hfinal.
  by destruct (b64encode img_bytes).
Qed.

(** The pass that gives up: the encoding is over budget, the quality
    cannot be lowered (the source is not JPEG, or the quality is at its
    floor) and one of the shrunk dimensions is below the floor. *)
Lemma cannot_compress_iff img_format max st :
  loop_body img_format max st = CannotCompress <->
  exists img_bytes,
    Image_save (save_format img_format) (save_quality img_format (quality st)) true
               (image_to_save img_format (image st)) = Returns img_bytes
    /\ ~ (inject_Z (tell img_bytes) * 4 / 3 <= inject_Z max)%Q
    /\ (is_jpeg img_format = false \/ quality st <= min_quality)
    /\ (Z.quot (width (image st) * 9) 10 < min_dimension
        \/ Z.quot (height (image st) * 9) 10 < min_dimension).
Proof.
  unfold loop_body. rewrite !py_int_resize.
  destruct (image_to_save_size img_format (image st)) as [-> ->].
  destruct (Image_save _ _ _ _) as [b|e].
  - destruct (fits b max) eqn:Hfits.
    { split; [discriminate|]. intros (b' & [= <-] & Hover & _).
      apply fits_spec in Hfits. contradiction. }
    assert (~ (inject_Z (tell b) * 4 / 3 <= inject_Z max)%Q) as Hover.
    { rewrite <- fits_spec. congruence. }
    destruct (is_jpeg img_format) eqn:Hj; simpl.
    + destruct (quality st >? min_quality) eqn:Hq.
      * split; [discriminate|]. intros (_ & _ & _ & [?|?] & _); [done|lia].
      * destruct (_ || _) eqn:Hdim.
        -- split; [|done]. intros _. exists b. repeat split; [done|right; lia|].
           apply orb_prop in Hdim as [?|?]; [left|right]; lia.
        -- split; [discriminate|]. intros (_ & _ & _ & _ & Hd).
           apply orb_false_elim in Hdim as [? ?]. lia.
    + destruct (_ || _) eqn:Hdim.
      * split; [|done]. intros _. exists b. repeat split; [done|by left|].
        apply orb_prop in Hdim as [?|?]; [left|right]; lia.
      * split; [discriminate|]. intros (_ & _ & _ & _ & Hd).
        apply orb_false_elim in Hdim as [? ?]. lia.
  - split; [discriminate|]. by intros (? & ? & _).
Qed.

(** A run gives up exactly when its passes lead to a pass that gives up. *)
Lemma runs_gave_up_iff img_format max st tr :
  runs img_format max st tr GaveUp <->
  exists final, passes img_format max st tr final
    /\ loop_body img_format max final = CannotCompress.
Proof.
  split.
  - remember GaveUp as ex eqn:Hex.
    induction 1 as [st i b H|st H|st e H|st st' tr ex H _ IH|st st' tr ex H _ IH];
      try discriminate.
    + exists st. split; [constructor|done].
    + destruct (IH Hex) as (final & Hp & Hfinal).
      exists final. split; [by eapply passes_quality|done].
    + destruct (IH Hex) as (final & Hp & Hfinal).
      exists final. split; [by eapply passes_shrink|done].
  - intros (final & Hp & Hfinal).
    induction Hp as [st|st st' tr st'' H _ IH|st st' tr st'' H _ IH].
    + by constructor.
    + eapply runs_quality; eauto.
    + eapply runs_shrink; eauto.
Qed.

(** The warning is shown exactly by the runs that give up. *)
Lemma warning_iff_gave_up file max_size_mb :
  convert_image_to_base64 file max_size_mb = (None, [st_warning cannot_compress_msg]) <->
  exists image tr,
    Image_open file = Returns image
    /\ runs (format image) (max_size_mb * 1024 * 1024)
            (mkState image initial_quality) tr GaveUp.
Proof.
  split.
  - unfold convert_image_to_base64.
    destruct (Image_open file) as [image|e]; [|discriminate].
    destruct (loop_runs (format image) (max_size_mb * 1024 * 1024)
                        (mkState image initial_quality)) as [tr Hrun].
    destruct (loop _ _ _); try discriminate. intros _. by exists image, tr.
  - intros (image & tr & Hopen & Hrun).
    by rewrite (convert_image_to_base64_runs _ _ _ _ _ Hopen Hrun).
Qed.

(** C5, as the code has it. When the first encoding fits the budget,
    [convert_image_to_base64] returns the base64 text of that encoding,
    made at the starting quality and from the image at its original size
    (no pass lowers the quality or shrinks it): a JPEG source is saved as
    JPEG at quality 90, a PNG source as PNG with no quality, and a source
    of any other format is converted to RGB and saved as JPEG at
    quality 90. *)
Theorem normalizer_fast_path (file : UploadedFile) (max_size_mb : Z)
    (image : Image Px) (img_bytes : list byte) :
  Image_open file = Returns image ->
  Image_save (save_format (format image))
             (save_quality (format image) initial_quality) true
             (image_to_save (format image) image) = Returns img_bytes ->
  (inject_Z (tell img_bytes) * 4 / 3 <= inject_Z (max_size_mb * 1024 * 1024))%Q ->
  convert_image_to_base64 file max_size_mb = (Some (b64encode img_bytes), [])
  /\ runs (format image) (max_size_mb * 1024 * 1024) (mkState image initial_quality)
          [] (Encoded (image_to_save (format image) image) img_bytes)
  /\ (is_jpeg (format image) = true ->
      Image_save "JPEG" (Some 90) true image = Returns img_bytes)
  /\ (format image = Some "PNG" ->
      Image_save "PNG" None true image = Returns img_bytes)
  /\ (is_jpeg (format image) = false -> is_png (format image) = false ->
      Image_save "JPEG" (Some 90) true (convert image "RGB") = Returns img_bytes).
Proof.
  intros Hopen Hsave Hfits. apply fits_spec in Hfits.
  assert (runs (format image) (max_size_mb * 1024 * 1024) (mkState image initial_quality)
               [] (Encoded (image_to_save (format image) image) img_bytes)) as Hrun.
  { constructor. unfold loop_body. simpl. by rewrite Hsave, Hfits. }
  split; [|split; [done|]].
  { by rewrite (convert_image_to_base64_runs _ _ _ _ _ Hopen Hrun). }
  revert Hsave. unfold save_format, save_quality, image_to_save.
  repeat split.
  - intros Hj. by rewrite Hj in Hsave.
  - intros Hpng. by rewrite Hpng in Hsave.
  - intros Hj Hpng. by rewrite Hj, Hpng in Hsave.
Qed.

End NormalizerProperties.

Module NormalizerExamples.
Import Example.

(** With a budget of zero nothing fits: the 1000x800 JPEG goes through the
    seven quality passes 90, 80, .., 30, then through thirteen shrinking
    passes down to 252x200, and the next pass gives up. *)
Example seven_quality_passes :
  loop_trace (Some "JPEG") 0 (mkState (mkImage (Some "JPEG") "RGB" 1000 800 8) 90)
  = repeat QualityPass 7 ++ repeat ShrinkPass 13
  /\ convert_image_to_base64 small_jpeg 0 = (None, [st_warning cannot_compress_msg]).
Proof. split; vm_compute; reflexivity. Qed.

(** A file that does not decode: [None], and the error is shown. *)
Example corrupt_file_is_reported :
  convert_image_to_base64 corrupt default_max_size_mb
  = (None, [st_error (image_error_prefix +:+ "cannot identify image file")]).
Proof. vm_compute. reflexivity. Qed.

(** The small JPEG fits the default budget at the first pass. *)
Lemma normalizer_success_fits_budget_witness :
  exists (image : Image Px) (final : loop_state) (image' : Image Px)
         (img_bytes : list byte),
    Image_open small_jpeg = Returns image
    /\ loop_body (format image) (default_max_size_mb * 1024 * 1024) final
       = Break image' img_bytes
    /\ fst (convert_image_to_base64 small_jpeg default_max_size_mb)
       = Some (b64encode img_bytes)
    /\ (inject_Z (tell img_bytes) * 4 / 3
        <= inject_Z (default_max_size_mb * 1024 * 1024))%Q
    /\ tell img_bytes * 4 <= 3 * (default_max_size_mb * 1024 * 1024)
    /\ default_max_size_mb * 1024 * 1024 = 5242880.
Proof.
  destruct (normalizer_success_fits_budget (PIL := codec) small_jpeg
              default_max_size_mb _ _ eq_refl)
    as (image & final & image' & img_bytes & H1 & H2 & H3 & H4 & H5 & H6).
  exists image, final, image', img_bytes.
  repeat split; try done. by rewrite <- H3.
Defined.

(** The small WEBP fits the default budget at the first pass: it is
    returned as an RGB JPEG of quality 90. *)
Lemma normalizer_fast_path_witness :
  exists (image : Image Px) (img_bytes : list byte),
    Image_open small_webp = Returns image
    /\ format image = Some "WEBP"
    /\ convert_image_to_base64 small_webp default_max_size_mb
       = (Some (b64encode img_bytes), [])
    /\ Image_save "JPEG" (Some 90) true (convert image "RGB") = Returns img_bytes.
Proof.
  eexists _, _. split; [reflexivity|]. split; [reflexivity|].
  pose proof (normalizer_fast_path (PIL := codec) small_webp default_max_size_mb
                _ _ eq_refl eq_refl) as Hfast.
  destruct Hfast as (Hret & _ & _ & _ & Hother).
  - vm_compute. discriminate.
  - split; [exact Hret|]. apply Hother; reflexivity.
Defined.

(** C5 as the specification words it fails on a WEBP source: its fast path
    does not keep the source format and is not lossless. The bytes
    returned for the small WEBP are those of a JPEG at quality 90, and no
    save in the format WEBP without a quality writes them. *)
Lemma fast_path_webp_saved_as_lossy_jpeg :
  exists (image : Image Px) (img_bytes : list byte),
    Image_open small_webp = Returns image
    /\ format image = Some "WEBP"
    /\ loop_body (format image) (default_max_size_mb * 1024 * 1024)
                 (mkState image initial_quality)
       = Break (convert image "RGB") img_bytes
    /\ convert_image_to_base64 small_webp default_max_size_mb
       = (Some (b64encode img_bytes), [])
    /\ save_format (format image) = "JPEG"
    /\ save_quality (format image) initial_quality = Some 90
    /\ Image_save "JPEG" (Some 90) true (convert image "RGB") = Returns img_bytes
    /\ (forall image' : Image Px, Image_save "WEBP" None true image' <> Returns img_bytes).
Proof.
  eexists _, _. repeat split; try reflexivity.
  intros image'. simpl. unfold save, header. simpl. discriminate.
Qed.

End NormalizerExamples.

(** * Properties of the message assembler *)

Section AssemblerProperties.
Context `{PIL : Imaging} `{PD : Pandas}.

Lemma valid_refs_lookup (σ : store) refs i (l : loc) :
  valid_refs σ refs -> refs !! i = Some l -> (l < length σ)%nat.
Proof. intros Hvalid Hl. by eapply (Forall_lookup_1 _ _ _ _ Hvalid). Qed.

Lemma valid_refs_app (σ : store) refs fresh :
  valid_refs σ refs -> valid_refs (σ ++ fresh) refs.
Proof.
  intros Hvalid. eapply Forall_impl; [exact Hvalid|].
  intros l Hl. simpl in *. rewrite length_app. lia.
Qed.

Lemma Forall2_impl_Forall {A B : Type} (P : A -> Prop) (R R' : A -> B -> Prop) l k :
  Forall P l -> Forall2 R l k -> (forall x y, P x -> R x y -> R' x y) ->
  Forall2 R' l k.
Proof.
  intros HP HR Himpl. induction HR as [|x y l k Hxy _ IH]; [constructor|].
  apply Forall_cons in HP as [Hx Hl]. constructor; auto.
Qed.

(** A copy made in a grown store is a copy of the message in the store
    before it grew. *)
Lemma copied_grown (σ : store) extra σ' l l' :
  (l < length σ)%nat -> copied (σ ++ extra) σ' l l' -> copied σ σ' l l'.
Proof.
  intros Hl (d & Hd & Hd' & Hkind). exists d.
  rewrite lookup_app_l in Hd by done. split; [done|]. split; [done|].
  destruct (is_user d); [|done]. rewrite length_app in Hkind. lia.
Qed.

(** The copying loop: the store only grows, each prepared reference is a
    copy of the message at its position, and a new object is referenced
    after every reference that precedes it. *)
Lemma copy_history_inv (σ : store) (messages prepared : list loc) :
  valid_refs σ messages -> valid_refs σ prepared ->
  exists fresh added,
    copy_history σ messages prepared = Some (σ ++ fresh, prepared ++ added)
    /\ Forall2 (copied σ (σ ++ fresh)) messages added
    /\ (forall i l', added !! i = Some l' -> (length σ <= l')%nat ->
        forall j l'', (prepared ++ added) !! j = Some l'' ->
                      (j < length prepared + i)%nat -> (l'' < l')%nat).
Proof.
  revert σ prepared.
  induction messages as [|msg rest IH]; intros σ prepared Hmsgs Hprep; simpl.
  - exists [], []. rewrite !app_nil_r. split; [done|]. split; [constructor|].
    intros i l' Hl'. by rewrite lookup_nil in Hl'.
  - apply Forall_cons in Hmsgs as [Hmsg Hrest].
    destruct (lookup_lt_is_Some_2 σ msg Hmsg) as [d Hd]. rewrite Hd.
    destruct (is_user d) eqn:Huser.
    + (* a user message: a new dict *)
      set (copy := mkMessage (role d) (content d)).
      assert (copy = d) as Hcopy by (by destruct d).
      destruct (IH (σ ++ [copy]) (prepared ++ [length σ])) as (fresh & added & Heq & Hcopied & Horder).
      { by apply valid_refs_app. }
      { apply Forall_app. split; [by apply valid_refs_app|].
        apply Forall_singleton. rewrite length_app. simpl. lia. }
      exists (copy :: fresh), (length σ :: added).
      rewrite <- !app_assoc in Heq. simpl in Heq. rewrite Heq.
      rewrite <- !app_assoc in Hcopied. simpl in Hcopied.
      split; [done|]. split.
      * constructor.
        -- exists d. rewrite Huser. split; [done|].
           rewrite lookup_app_r, Nat.sub_diag by lia. simpl.
           rewrite length_app. simpl. split; [by rewrite Hcopy|lia].
        -- eapply Forall2_impl_Forall; [exact Hrest|exact Hcopied|].
           intros l l' Hl Hc. simpl in Hl. by eapply copied_grown.
      * intros i l' Hl' Hfresh j l'' Hl'' Hj. destruct i as [|i]; simpl in Hl'.
        -- injection Hl' as <-. rewrite lookup_app_l in Hl'' by lia.
           by eapply valid_refs_lookup.
        -- rewrite <- app_assoc in Horder. simpl in Horder.
           eapply (Horder i l' Hl'); [|exact Hl''|rewrite length_app; simpl; lia].
           destruct (Forall2_lookup_r _ _ _ _ _ Hcopied Hl') as (l & Hl & d' & _ & _ & Hkind).
           destruct (is_user d'); [lia|]. subst l'.
           pose proof (valid_refs_lookup _ _ _ _ Hrest Hl). lia.
    + (* any other message: the same dict *)
      destruct (IH σ (prepared ++ [msg])) as (fresh & added & Heq & Hcopied & Horder).
      { done. }
      { apply Forall_app. split; [done|]. by apply Forall_singleton. }
      exists fresh, (msg :: added).
      rewrite <- !app_assoc in Heq. simpl in Heq. rewrite Heq.
      split; [done|]. split.
      * constructor; [|done].
        exists d. rewrite Huser.
        split; [done|]. split; [|done]. by rewrite lookup_app_l.
      * intros i l' Hl' Hfresh j l'' Hl'' Hj. destruct i as [|i]; simpl in Hl'.
        -- injection Hl' as <-. lia.
        -- rewrite <- app_assoc in Horder. simpl in Horder.
           eapply (Horder i l' Hl'); [done|exact Hl''|rewrite length_app; simpl; lia].
Qed.

(** A list of references denotes the messages [ms] when it has their
    length and each reference holds the message at its position. *)
Lemma view_Some (σ : store) (refs : list loc) (ms : list message) :
  view σ refs = Some ms <->
  length refs = length ms
  /\ forall i l d, refs !! i = Some l -> ms !! i = Some d -> σ !! l = Some d.
Proof.
  unfold view. rewrite mapM_Some. apply Forall2_same_length_lookup.
Qed.

(** The prepared list denotes, right after the copying loop, what the
    history denotes. *)
Lemma copied_view (σ σ' : store) (messages out : list loc) :
  Forall2 (copied σ σ') messages out ->
  exists ms, view σ messages = Some ms /\ view σ' out = Some ms.
Proof.
  induction 1 as [|l l' messages out (d & Hd & Hd' & _) _ (ms & Hms & Hms')].
  - by exists [].
  - exists (d :: ms). unfold view in *. simpl. by rewrite Hd, Hd', Hms, Hms'.
Qed.

(** Attaching rebinds the content of the last prepared dict only: the
    dicts of the store [σ] of before the call keep their value and the
    prepared list denotes the messages with the attachment. *)
Lemma attach_spec (σ σ' : store) (messages out : list loc) (ms : list message)
    (attachment : block) :
  Forall2 (copied σ σ') messages out ->
  (forall i l', out !! i = Some l' -> (length σ <= l')%nat ->
     forall j l'', out !! j = Some l'' -> (j < i)%nat -> (l'' < l')%nat) ->
  view σ' out = Some ms ->
  nonempty out = true ->
  exists σ'',
    attach σ' out attachment = Some σ''
    /\ length σ'' = length σ'
    /\ (forall l, (l < length σ)%nat -> σ'' !! l = σ' !! l)
    /\ view σ'' out = Some (with_attachment attachment ms).
Proof.
  intros Hcopied Horder Hview Hne.
  apply view_Some in Hview as [Hlen Hview].
  assert (pred (length out) < length out)%nat as Hn
    by (destruct out; [done|simpl; lia]).
  set (n := pred (length out)) in *.
  destruct (lookup_lt_is_Some_2 out n Hn) as [last_message Hlast].
  destruct (Forall2_lookup_r _ _ _ _ _ Hcopied Hlast) as (l & Hl & d & _ & Hd & Hkind).
  assert (ms !! n = Some d) as Hmsn.
  { destruct (lookup_lt_is_Some_2 ms n ltac:(lia)) as [d' Hd'].
    rewrite (Hview _ _ _ Hlast Hd') in Hd. congruence. }
  unfold attach. rewrite last_lookup. fold n. rewrite Hlast, Hd.
  unfold with_attachment. rewrite <- Hlen. fold n.
  destruct (is_user d) eqn:Huser.
  - eexists. split; [done|]. split; [by rewrite length_insert|]. split.
    + intros l0 Hl0. apply list_lookup_insert_ne. lia.
    + apply view_Some. split; [by rewrite length_alter|].
      intros i li di Hi Hdi. destruct (decide (i = n)) as [->|Hin].
      * rewrite list_lookup_alter_eq, Hmsn in Hdi. simpl in Hdi.
        unfold rebound in Hdi. rewrite Huser in Hdi. injection Hdi as <-.
        assert (li = last_message) as -> by congruence.
        apply list_lookup_insert_eq. lia.
      * rewrite list_lookup_alter_ne in Hdi by done.
        rewrite list_lookup_insert_ne; [by eapply Hview|].
        apply lookup_lt_Some in Hi as Hilt.
        assert (li < last_message)%nat; [|lia].
        eapply (Horder n last_message Hlast); [lia|exact Hi|lia].
  - exists σ'. split; [done|]. split; [done|]. split; [done|].
    apply view_Some. split; [by rewrite length_alter|].
    intros i li di Hi Hdi. destruct (decide (i = n)) as [->|Hin].
    + rewrite list_lookup_alter_eq, Hmsn in Hdi. simpl in Hdi.
      unfold rebound in Hdi. rewrite Huser in Hdi. injection Hdi as <-.
      assert (li = last_message) as -> by congruence. done.
    + rewrite list_lookup_alter_ne in Hdi by done. by eapply Hview.
Qed.

(** [prepare_messages] on the store refines [assembled] on values: it
    returns, every dict of the store of before the call keeps its value,
    and the prepared list denotes the assembled messages. *)
Lemma prepare_messages_spec (σ : store) (messages : list loc)
    (uploaded_file : option UploadedFile) :
  valid_refs σ messages ->
  exists ms out σ',
    view σ messages = Some ms
    /\ prepare_messages σ messages uploaded_file
       = Some (out, σ', snd (assembled ms uploaded_file))
    /\ (forall l, (l < length σ)%nat -> σ' !! l = σ !! l)
    /\ Forall2 (shares σ σ') messages out
    /\ view σ' out = Some (fst (assembled ms uploaded_file)).
Proof.
  intros Hvalid.
  destruct (copy_history_inv σ messages [] Hvalid ltac:(constructor))
    as (fresh & out & Hcopy & Hcopied & Horder).
  simpl in Hcopy, Horder.
  destruct (copied_view _ _ _ _ Hcopied) as (ms & Hms & Hout).
  assert (Forall2 (shares σ (σ ++ fresh)) messages out) as Hshares.
  { eapply Forall2_impl; [exact Hcopied|].
    intros l l' (d & Hd & _ & Hkind). by exists d. }
  assert (forall l, (l < length σ)%nat -> (σ ++ fresh) !! l = σ !! l) as Hframe.
  { intros l Hl. by apply lookup_app_l. }
  assert (nonempty out = nonempty ms) as Hne.
  { apply view_Some in Hout as [Hlen _]. by destruct out, ms. }
  assert (forall attachment, nonempty out = true ->
          exists σ'', attach (σ ++ fresh) out attachment = Some σ''
            /\ (forall l, (l < length σ)%nat -> σ'' !! l = σ !! l)
            /\ Forall2 (shares σ σ'') messages out
            /\ view σ'' out = Some (with_attachment attachment ms)) as Hattach.
  { intros attachment Hnonempty.
    destruct (attach_spec σ (σ ++ fresh) messages out ms attachment)
      as (σ'' & Hσ'' & Hlen & Hsame & Hview); try done.
    exists σ''. split; [done|]. split.
    { intros l Hl. rewrite Hsame by done. by apply Hframe. }
    split; [|done].
    eapply Forall2_impl; [exact Hshares|].
    intros l l' (d & Hd & Hkind). exists d. split; [done|]. by rewrite Hlen. }
  exists ms, out. unfold prepare_messages, assembled. rewrite Hcopy.
  destruct uploaded_file as [file|]; [|by exists (σ ++ fresh)].
  rewrite Hne. destruct (nonempty ms) eqn:Hnonempty; [|by exists (σ ++ fresh)].
  unfold attachment_of.
  destruct (String.prefix "image/" (type file)).
  { destruct (convert_image_to_base64 file default_max_size_mb) as [[data|] shown];
      [|by exists (σ ++ fresh)].
    destruct (truthy data); [|by exists (σ ++ fresh)].
    destruct (Hattach (image_block "base64" (type file) data) Hne)
      as (σ'' & -> & ? & ? & ?).
    by exists σ''. }
  destruct (is_excel (type file)); [|by exists (σ ++ fresh)].
  destruct (read_excel file) as [df|e]; [|by exists (σ ++ fresh)].
  destruct (to_string df false) as [df_string|e]; [|by exists (σ ++ fresh)].
  destruct (Hattach (text_block (Text (fenced df_string))) Hne)
    as (σ'' & -> & ? & ? & ?).
  by exists σ''.
Qed.

Lemma rebound_role attachment d : role (rebound attachment d) = role d.
Proof. unfold rebound. by destruct (is_user d). Qed.

Lemma with_attachment_lookup attachment ms i d :
  ms !! i = Some d ->
  exists d', with_attachment attachment ms !! i = Some d'
    /\ role d' = role d
    /\ (S i < length ms -> d' = d)%nat.
Proof.
  intros Hd. unfold with_attachment.
  destruct (decide (pred (length ms) = i)) as [<-|Hne].
  - exists (rebound attachment d). rewrite list_lookup_alter_eq, Hd.
    split; [done|]. split; [apply rebound_role|lia].
  - exists d. by rewrite list_lookup_alter_ne.
Qed.

(** On values: assembling keeps the number of messages and every role,
    and every message but the last. *)
Lemma assembled_shape ms uploaded_file :
  length (fst (assembled ms uploaded_file)) = length ms
  /\ forall i d, ms !! i = Some d ->
       exists d', fst (assembled ms uploaded_file) !! i = Some d'
         /\ role d' = role d
         /\ (S i < length ms -> d' = d)%nat.
Proof.
  unfold assembled.
  destruct uploaded_file as [file|]; [|by eauto].
  destruct (nonempty ms); [|by eauto].
  destruct (attachment_of file) as [[attachment|] shown]; [|by eauto].
  simpl. split; [apply length_alter|].
  intros i d. apply with_attachment_lookup.
Qed.

(** C8. Without an attachment the prepared list denotes exactly the
    messages the history denotes, each with its role and its content, and
    nothing is shown. *)
Theorem assembler_without_attachment (σ : store) (messages : list loc) :
  valid_refs σ messages ->
  exists (ms : list message) (out : list loc) (σ' : store),
    view σ messages = Some ms
    /\ prepare_messages σ messages None = Some (out, σ', [])
    /\ view σ' out = Some ms.
Proof.
  intros Hvalid.
  destruct (prepare_messages_spec σ messages None Hvalid)
    as (ms & out & σ' & Hms & Hret & _ & _ & Hview).
  by exists ms, out, σ'.
Qed.

(** C10. On an empty history the assembler returns the empty list, leaves
    the store as it is and shows nothing, whatever file is attached. *)
Theorem assembler_empty_history (σ : store) (uploaded_file : option UploadedFile) :
  prepare_messages σ [] uploaded_file = Some ([], σ, []).
Proof. by destruct uploaded_file. Qed.

(** C4. The prepared list has as many messages as the history, with the
    same role at every position; every message before the last one is
    unchanged. *)
Theorem assembler_preserves_count_and_roles (σ : store) (messages : list loc)
    (uploaded_file : option UploadedFile) :
  valid_refs σ messages ->
  exists (ms ms' : list message) (out : list loc) (σ' : store) (shown : list st_event),
    view σ messages = Some ms
    /\ prepare_messages σ messages uploaded_file = Some (out, σ', shown)
    /\ view σ' out = Some ms'
    /\ length out = length messages
    /\ length ms' = length ms
    /\ forall i d, ms !! i = Some d ->
         exists d', ms' !! i = Some d'
           /\ role d' = role d
           /\ (S i < length ms -> d' = d)%nat.
Proof.
  intros Hvalid.
  destruct (prepare_messages_spec σ messages uploaded_file Hvalid)
    as (ms & out & σ' & Hms & Hret & _ & Hshares & Hview).
  destruct (assembled_shape ms uploaded_file) as [Hlen Hroles].
  exists ms, (fst (assembled ms uploaded_file)), out, σ', (snd (assembled ms uploaded_file)).
  repeat split; try done.
  symmetry. by eapply Forall2_length.
Qed.

(** C3. When the history ends with a user message of content [c] and the
    attached file is an image that [convert_image_to_base64] encodes to
    [data], the last prepared message has the role [user] and the content
    [[text block of c; image block (base64, MIME type of the file, data)]]. *)
Theorem assembler_injects_image (σ : store) (messages : list loc) (file : UploadedFile)
    (last_message : loc) (c : Content) (data : string) (shown : list st_event) :
  valid_refs σ messages ->
  last messages = Some last_message ->
  σ !! last_message = Some (mkMessage "user" c) ->
  String.prefix "image/" (type file) = true ->
  convert_image_to_base64 file default_max_size_mb = (Some data, shown) ->
  exists (out : list loc) (σ' : store) (last_prepared : loc),
    prepare_messages σ messages (Some file) = Some (out, σ', shown)
    /\ length out = length messages
    /\ last out = Some last_prepared
    /\ σ' !! last_prepared
       = Some (mkMessage "user"
                 (Blocks [text_block c; image_block "base64" (type file) data])).
Proof.
  intros Hvalid Hlast Hd Himage Hconvert.
  pose proof (convert_image_to_base64_truthy _ _ _ _ Hconvert) as Htruthy.
  destruct (prepare_messages_spec σ messages (Some file) Hvalid)
    as (ms & out & σ' & Hms & Hret & _ & Hshares & Hview).
  apply view_Some in Hms as [Hlen Hms].
  pose proof (Forall2_length _ _ _ Hshares) as Hlen'.
  rewrite last_lookup in Hlast.
  assert (ms !! pred (length ms) = Some (mkMessage "user" c)) as Hmslast.
  { rewrite <- Hlen. apply lookup_lt_Some in Hlast as Hlt.
    destruct (lookup_lt_is_Some_2 ms (pred (length messages)) ltac:(lia)) as [d Hd'].
    rewrite (Hms _ _ _ Hlast Hd') in Hd. congruence. }
  assert (nonempty ms = true) as Hne.
  { destruct ms; [by rewrite lookup_nil in Hmslast|done]. }
  unfold assembled, attachment_of in Hret, Hview.
  rewrite Hne, Himage, Hconvert, Htruthy in Hret, Hview. simpl in Hret, Hview.
  apply view_Some in Hview as [Hlen'' Hview].
  assert (pred (length out) < length out)%nat as Hlt.
  { apply lookup_lt_Some in Hlast. lia. }
  destruct (lookup_lt_is_Some_2 out _ Hlt) as [last_prepared Hprepared].
  exists out, σ', last_prepared. rewrite last_lookup.
  repeat split; [done|lia|done|].
  eapply Hview; [exact Hprepared|].
  unfold with_attachment. rewrite <- Hlen', Hlen.
  by rewrite list_lookup_alter_eq, Hmslast.
Qed.

(** References that are valid in a store denote the same messages in
    any store that agrees with it on its dicts. *)
Lemma view_frame (σ σ' : store) (refs : list loc) :
  (forall l, (l < length σ)%nat -> σ' !! l = σ !! l) ->
  valid_refs σ refs -> view σ' refs = view σ refs.
Proof.
  intros Hframe. unfold view. induction 1 as [|l refs Hl _ IH]; [done|].
  simpl. by rewrite IH, (Hframe l Hl).
Qed.

Lemma valid_refs_frame (σ σ' : store) (refs : list loc) :
  (forall l, (l < length σ)%nat -> σ' !! l = σ !! l) ->
  valid_refs σ refs -> valid_refs σ' refs.
Proof.
  intros Hframe Hvalid. eapply Forall_impl; [exact Hvalid|].
  intros l Hl. simpl in *.
  destruct (lookup_lt_is_Some_2 σ l Hl) as [d Hd].
  rewrite <- (Hframe l Hl) in Hd. by eapply lookup_lt_Some.
Qed.

(** C7. A call changes no dict of the store it was given: every stored
    entry keeps its role and its content, so the history denotes the same
    messages after the call. The returned list is derived from it: a user
    message is a new dict, any other message is the stored dict itself,
    unchanged. A second call on the same history and file returns a list
    that denotes the same messages and shows the same. *)
Theorem assembler_does_not_mutate_history (σ : store) (messages : list loc)
    (uploaded_file : option UploadedFile) :
  valid_refs σ messages ->
  exists (out : list loc) (σ' : store) (shown : list st_event),
    prepare_messages σ messages uploaded_file = Some (out, σ', shown)
    /\ (forall l d, σ !! l = Some d -> σ' !! l = Some d)
    /\ view σ' messages = view σ messages
    /\ Forall2 (shares σ σ') messages out
    /\ exists (out2 : list loc) (σ2 : store),
         prepare_messages σ' messages uploaded_file = Some (out2, σ2, shown)
         /\ view σ2 out2 = view σ' out
         /\ view σ2 messages = view σ messages.
Proof.
  intros Hvalid.
  destruct (prepare_messages_spec σ messages uploaded_file Hvalid)
    as (ms & out & σ' & Hms & Hret & Hframe & Hshares & Hview).
  pose proof (view_frame _ _ _ Hframe Hvalid) as Hsame.
  pose proof (valid_refs_frame _ _ _ Hframe Hvalid) as Hvalid'.
  destruct (prepare_messages_spec σ' messages uploaded_file Hvalid')
    as (ms2 & out2 & σ2 & Hms2 & Hret2 & Hframe2 & _ & Hview2).
  assert (ms2 = ms) as -> by congruence.
  exists out, σ', (snd (assembled ms uploaded_file)).
  split; [done|]. split.
  { intros l d Hd. rewrite Hframe; [done|]. by eapply lookup_lt_Some. }
  split; [done|]. split; [done|].
  exists out2, σ2. split; [done|]. split; [congruence|].
  rewrite (view_frame _ _ _ Hframe2 Hvalid'). done.
Qed.

(** C6. A pass gives up exactly when its encoding is over budget, the
    quality cannot be lowered and a shrunk dimension is below 200;
    [convert_image_to_base64] returns [None] with the CannotCompress
    warning exactly when its passes lead to such a pass; and the
    assembler then returns the history's messages unchanged (the last
    content stays the text it was), showing that warning only. *)
Theorem cannot_compress_is_nonfatal (file : UploadedFile) (max_size_mb : Z)
    (σ : store) (messages : list loc) :
  (forall img_format max st,
     loop_body img_format max st = CannotCompress <->
     exists img_bytes,
       Image_save (save_format img_format) (save_quality img_format (quality st)) true
                  (image_to_save img_format (image st)) = Returns img_bytes
       /\ ~ (inject_Z (tell img_bytes) * 4 / 3 <= inject_Z max)%Q
       /\ (is_jpeg img_format = false \/ quality st <= min_quality)
       /\ (Z.quot (width (image st) * 9) 10 < min_dimension
           \/ Z.quot (height (image st) * 9) 10 < min_dimension))
  /\ (convert_image_to_base64 file max_size_mb
      = (None, [st_warning cannot_compress_msg]) <->
      exists image tr final,
        Image_open file = Returns image
        /\ passes (format image) (max_size_mb * 1024 * 1024)
                  (mkState image initial_quality) tr final
        /\ loop_body (format image) (max_size_mb * 1024 * 1024) final = CannotCompress)
  /\ (valid_refs σ messages -> messages <> [] ->
      String.prefix "image/" (type file) = true ->
      convert_image_to_base64 file default_max_size_mb
      = (None, [st_warning cannot_compress_msg]) ->
      exists (ms : list message) (out : list loc) (σ' : store),
        view σ messages = Some ms
        /\ prepare_messages σ messages (Some file)
           = Some (out, σ', [st_warning cannot_compress_msg])
        /\ view σ' out = Some ms).
Proof.
  split; [apply cannot_compress_iff|]. split.
  - rewrite warning_iff_gave_up. split.
    + intros (image & tr & Hopen & Hrun).
      apply runs_gave_up_iff in Hrun as (final & Hp & Hfinal). by exists image, tr, final.
    + intros (image & tr & final & Hopen & Hp & Hfinal).
      exists image, tr. split; [done|]. apply runs_gave_up_iff. by exists final.
  - intros Hvalid Hne Himage Hconvert.
    destruct (prepare_messages_spec σ messages (Some file) Hvalid)
      as (ms & out & σ' & Hms & Hret & _ & _ & Hview).
    assert (nonempty ms = true) as Hnonempty.
    { apply view_Some in Hms as [Hlen _]. by destruct messages, ms. }
    unfold assembled, attachment_of in Hret, Hview.
    rewrite Hnonempty, Himage, Hconvert in Hret, Hview.
    by exists ms, out, σ'.
Qed.

End AssemblerProperties.

Module AssemblerExamples.
Import Example.

(** Scenario C: a spreadsheet is attached as a fenced text block after the
    text of the turn. *)
Example spreadsheet_is_fenced :
  exists (out : list loc) (σ' : store),
    prepare_messages one_turn [0%nat] (Some workbook) = Some (out, σ', [])
    /\ view σ' out
       = Some [mkMessage "user"
                 (Blocks [text_block (Text "describe");
                          text_block (Text (fenced ("a  1" +:+ newline +:+ "b  2")))])]
    /\ view σ' [0%nat] = Some one_turn.
Proof. eexists _, _. by vm_compute. Qed.

(** The last turn is the assistant's: the attachment is not put anywhere. *)
Example attachment_needs_a_user_turn :
  exists (out : list loc) (σ' : store),
    prepare_messages (one_turn ++ [mkMessage "assistant" (Text "a cat")])
                     [0%nat; 1%nat] (Some small_jpeg) = Some (out, σ', [])
    /\ view σ' out = Some (one_turn ++ [mkMessage "assistant" (Text "a cat")]).
Proof. eexists _, _. by vm_compute. Qed.

Lemma one_turn_valid : valid_refs one_turn [0%nat].
Proof. apply Forall_singleton. simpl. lia. Defined.

Lemma three_turns_valid : valid_refs three_turns [0%nat; 1%nat; 2%nat].
Proof. repeat (apply Forall_cons; split; [simpl; lia|]). apply Forall_nil_2. Defined.

(** Scenario A: one user turn and no attachment. *)
Lemma assembler_without_attachment_witness :
  valid_refs one_turn [0%nat]
  /\ exists (out : list loc) (σ' : store),
       prepare_messages one_turn [0%nat] None = Some (out, σ', [])
       /\ view σ' out = Some [mkMessage "user" (Text "describe")].
Proof.
  split; [exact one_turn_valid|].
  destruct (assembler_without_attachment one_turn [0%nat] one_turn_valid)
    as (ms & out & σ' & Hms & Hret & Hview).
  injection Hms as <-. by exists out, σ'.
Defined.

(** Three turns and a JPEG: three messages with the same roles come out. *)
Lemma assembler_preserves_count_and_roles_witness :
  valid_refs three_turns [0%nat; 1%nat; 2%nat]
  /\ exists (ms' : list message) (out : list loc) (σ' : store) (shown : list st_event),
       prepare_messages three_turns [0%nat; 1%nat; 2%nat] (Some small_jpeg)
       = Some (out, σ', shown)
       /\ view σ' out = Some ms'
       /\ length out = 3%nat
       /\ role <$> ms' = ["user"; "assistant"; "user"]
       /\ take 2 ms' = take 2 three_turns.
Proof.
  split; [exact three_turns_valid|].
  destruct (assembler_preserves_count_and_roles three_turns [0%nat; 1%nat; 2%nat]
              (Some small_jpeg) three_turns_valid)
    as (ms & ms' & out & σ' & shown & Hms & Hret & Hview & Hout & Hlen & Hroles).
  injection Hms as <-.
  exists ms', out, σ', shown. repeat split; try done.
  - destruct (Hroles 0%nat _ eq_refl) as (d0 & Hd0 & Hr0 & _).
    destruct (Hroles 1%nat _ eq_refl) as (d1 & Hd1 & Hr1 & _).
    destruct (Hroles 2%nat _ eq_refl) as (d2 & Hd2 & Hr2 & _).
    destruct ms' as [|? [|? [|? [|? ?]]]]; try discriminate.
    simpl in *. congruence.
  - destruct (Hroles 0%nat _ eq_refl) as (d0 & Hd0 & _ & He0).
    destruct (Hroles 1%nat _ eq_refl) as (d1 & Hd1 & _ & He1).
    destruct ms' as [|? [|? [|? [|? ?]]]]; try discriminate.
    simpl in *. rewrite <- He0, <- He1 by lia. congruence.
Defined.

(** Scenario B: one user turn and a JPEG that is encoded. *)
Lemma assembler_injects_image_witness :
  exists (data : string) (out : list loc) (σ' : store) (last_prepared : loc),
    convert_image_to_base64 small_jpeg default_max_size_mb = (Some data, [])
    /\ prepare_messages one_turn [0%nat] (Some small_jpeg) = Some (out, σ', [])
    /\ length out = 1%nat
    /\ last out = Some last_prepared
    /\ σ' !! last_prepared
       = Some (mkMessage "user"
                 (Blocks [text_block (Text "describe");
                          image_block "base64" "image/jpeg" data])).
Proof.
  assert (exists data, convert_image_to_base64 small_jpeg default_max_size_mb
                       = (Some data, [])) as [data Hconvert]
    by (vm_compute; eexists; reflexivity).
  destruct (assembler_injects_image one_turn [0%nat] small_jpeg 0%nat
              (Text "describe") data [] one_turn_valid eq_refl eq_refl eq_refl Hconvert)
    as (out & σ' & last_prepared & Hret & Hlen & Hlast & Hcontent).
  by exists data, out, σ', last_prepared.
Defined.

(** Three turns and a JPEG: the store of before the call is intact. *)
Lemma assembler_does_not_mutate_history_witness :
  valid_refs three_turns [0%nat; 1%nat; 2%nat]
  /\ exists (out : list loc) (σ' : store) (shown : list st_event),
       prepare_messages three_turns [0%nat; 1%nat; 2%nat] (Some small_jpeg)
       = Some (out, σ', shown)
       /\ (forall l d, three_turns !! l = Some d -> σ' !! l = Some d)
       /\ view σ' [0%nat; 1%nat; 2%nat] = Some three_turns.
Proof.
  split; [exact three_turns_valid|].
  destruct (assembler_does_not_mutate_history three_turns [0%nat; 1%nat; 2%nat]
              (Some small_jpeg) three_turns_valid)
    as (out & σ' & shown & Hret & Hframe & Hview & _).
  by exists out, σ', shown.
Defined.

(** Scenario D: a 200x200 PNG over the budget cannot be shrunk; the turn
    goes out as text. *)
Lemma cannot_compress_is_nonfatal_witness :
  convert_image_to_base64 dense_png default_max_size_mb
  = (None, [st_warning cannot_compress_msg])
  /\ exists (out : list loc) (σ' : store),
       prepare_messages one_turn [0%nat] (Some dense_png)
       = Some (out, σ', [st_warning cannot_compress_msg])
       /\ view σ' out = Some [mkMessage "user" (Text "describe")].
Proof.
  assert (convert_image_to_base64 dense_png default_max_size_mb
          = (None, [st_warning cannot_compress_msg])) as Hwarned
    by (vm_compute; reflexivity).
  split; [exact Hwarned|].
  destruct (proj2 (proj2 (cannot_compress_is_nonfatal dense_png default_max_size_mb
                            one_turn [0%nat]))
              one_turn_valid ltac:(discriminate) eq_refl Hwarned)
    as (ms & out & σ' & Hms & Hret & Hview).
  injection Hms as <-. exists out, σ'. exact (conj Hret Hview).
Defined.

End AssemblerExamples.

(** * Properties of the completion client *)

Section CompletionProperties.
Context `{API : Anthropic.Client}.

(** C9. When the endpoint answers, [stream_response] returns the text of
    the first content block of the answer, and [None] when the answer has
    no block; in both cases nothing is shown. *)
Theorem completion_returns_first_block (client : Anthropic.client)
    (messages : list message) (response : Anthropic.Message) :
  Anthropic.messages_create client CLAUDE_MODEL 4096 messages = Returns response ->
  stream_response client messages
  = (match Anthropic.content response with
     | first :: _ => Some (Anthropic.text first)
     | [] => None
     end, []).
Proof.
  intros Hanswer. unfold stream_response. rewrite Hanswer.
  by destruct (Anthropic.content response).
Qed.

End CompletionProperties.

Module CompletionExamples.
Import Example.

(** An answer of two blocks: the text of the first is returned; an answer
    without blocks: [None]. *)
Lemma completion_returns_first_block_witness :
  stream_response (Some ["It is a cat."; "Anything else?"]) one_turn
  = (Some "It is a cat.", [])
  /\ stream_response (Some []) one_turn = (None, []).
Proof.
  split.
  - exact (completion_returns_first_block (API := endpoint)
             (Some ["It is a cat."; "Anything else?"]) one_turn _ eq_refl).
  - exact (completion_returns_first_block (API := endpoint) (Some []) one_turn _ eq_refl).
Defined.

End CompletionExamples.

(** * Further properties of the image normalizer *)

Section NormalizerPasses.
Context `{PIL : Imaging}.

(** A dimension below 223 shrinks to less than the floor. *)
Lemma small_dimension_shrinks_below_floor (d : Z) :
  d < 223 -> Z.quot (d * 9) 10 < min_dimension.
Proof.
  unfold min_dimension. intros Hd.
  destruct (Z_lt_le_dec d 0) as [Hneg|Hpos].
  - assert (Z.quot (d * 9) 10 <= 0); [|lia].
    apply Z.quot_le_upper_bound; lia.
  - rewrite Z.quot_div_nonneg by lia.
    apply Z.div_lt_upper_bound; lia.
Qed.

(** A run splits in one way into quality passes and shrinking passes. *)
Lemma passes_split_unique (a a' b b' : nat) :
  repeat QualityPass a ++ repeat ShrinkPass b
  = repeat QualityPass a' ++ repeat ShrinkPass b' ->
  a = a' /\ b = b'.
Proof.
  revert a'. induction a as [|a IH]; intros [|a'] Heq; simpl in Heq.
  - split; [done|]. by rewrite <- (repeat_length ShrinkPass b), Heq, repeat_length.
  - destruct b; discriminate.
  - destruct b'; discriminate.
  - injection Heq as Heq. destruct (IH _ Heq) as [-> ->]. done.
Qed.

(** In a run of a JPEG source a shrinking pass comes only when the
    quality, lowered by ten at each quality pass, has reached its floor. *)
Lemma jpeg_shrinks_at_floor img_format max st tr ex :
  runs img_format max st tr ex ->
  is_jpeg img_format = true ->
  forall lowered shrunk,
    tr = repeat QualityPass lowered ++ repeat ShrinkPass (S shrunk) ->
    quality st - 10 * Z.of_nat lowered <= min_quality.
Proof.
  induction 1 as [st i b H|st H|st e H|st st' tr ex H _ IH|st st' tr ex H _ IH];
    intros Hj lowered shrunk Htr.
  - destruct lowered; discriminate.
  - destruct lowered; discriminate.
  - destruct lowered; discriminate.
  - destruct lowered as [|lowered]; [discriminate|].
    injection Htr as Htr.
    apply lower_quality_inv in H as (_ & _ & ->).
    specialize (IH Hj lowered shrunk Htr). simpl in IH. lia.
  - destruct lowered as [|lowered]; [|discriminate].
    apply shrink_inv in H as (Hq & _).
    rewrite Hj in Hq. simpl in Hq. lia.
Qed.

(** The size of the image a run ends on, by whether the run shrank. *)
Lemma encoded_size img_format max st tr image' img_bytes :
  runs img_format max st tr (Encoded image' img_bytes) ->
  (~ In ShrinkPass tr
   /\ width image' = width (image st) /\ height image' = height (image st))
  \/ (In ShrinkPass tr
      /\ min_dimension <= width image' < width (image st)
      /\ min_dimension <= height image' < height (image st)).
Proof.
  remember (Encoded image' img_bytes) as ex eqn:Hex.
  induction 1 as [st i b H|st H|st e H|st st' tr ex H _ IH|st st' tr ex H _ IH];
    try discriminate.
  - injection Hex as -> ->. left. split; [by intros []|].
    unfold loop_body in H. destruct (Image_save _ _ _ _) as [b'|]; [|discriminate].
    destruct (fits b' max).
    + injection H as <- _. apply image_to_save_size.
    + destruct (_ && _); [discriminate|]. destruct (_ || _); discriminate.
  - apply lower_quality_inv in H as (_ & _ & ->). simpl in IH.
    destruct (IH Hex) as [(Hno & Hw & Hh)|(Hin & Hw & Hh)].
    + left. split; [|done]. intros [Habs|Habs]; [discriminate|done].
    + right. split; [by right|done].
  - apply shrink_inv in H as (_ & _ & Hw' & Hh' & Hwf & Hhf).
    pose proof Hwf as Hwlt. rewrite Hw' in Hwlt. apply shrink_lt in Hwlt.
    pose proof Hhf as Hhlt. rewrite Hh' in Hhlt. apply shrink_lt in Hhlt.
    right. split; [by left|].
    destruct (IH Hex) as [(_ & Hw & Hh)|(_ & Hw & Hh)]; lia.
Qed.

(** X1. A source that is not JPEG never has its quality lowered: every
    pass of its run shrinks the image. *)
Theorem non_jpeg_only_shrinks (img_format : option string) (max_size_bytes : Z)
    (st : loop_state) :
  is_jpeg img_format = false ->
  exists shrunk : nat,
    loop_trace img_format max_size_bytes st = repeat ShrinkPass shrunk.
Proof.
  intros Hj.
  pose proof (loop_runs_trace img_format max_size_bytes st) as Hrun.
  destruct (shrink_phase _ _ _ _ _ Hrun) as (n & Htr & _).
  { by rewrite Hj. }
  by exists n.
Qed.

(** X2. A JPEG source is shrunk only after all seven quality passes: when
    the run that starts at quality 90 has a shrinking pass, it has exactly
    seven quality passes before it (the quality is then 20). *)
Theorem jpeg_shrinks_after_seven_quality_passes (img_format : option string)
    (max_size_bytes : Z) (st : loop_state) (lowered shrunk : nat) :
  is_jpeg img_format = true ->
  quality st = initial_quality ->
  loop_trace img_format max_size_bytes st
  = repeat QualityPass lowered ++ repeat ShrinkPass shrunk ->
  (0 < shrunk)%nat ->
  lowered = 7%nat.
Proof.
  intros Hj Hquality Htr Hshrunk.
  pose proof (loop_runs_trace img_format max_size_bytes st) as Hrun.
  destruct shrunk as [|shrunk]; [lia|].
  pose proof (jpeg_shrinks_at_floor _ _ _ _ _ Hrun Hj lowered shrunk Htr) as Hfloor.
  destruct (quality_phase _ _ _ _ _ Hrun) as (a & b & Htr' & Ha & _).
  rewrite Htr in Htr'. apply passes_split_unique in Htr' as [<- _].
  rewrite Hquality in *. unfold initial_quality, min_quality in *. lia.
Qed.

(** X3. The image that is encoded is the source at its own size when no
    pass shrank it; otherwise both its sides are smaller than the source's
    and at least 200. *)
Theorem encoded_image_size (img_format : option string) (max_size_bytes : Z)
    (st : loop_state) (image' : Image Px) (img_bytes : list byte) :
  loop img_format max_size_bytes st = Encoded image' img_bytes ->
  (~ In ShrinkPass (loop_trace img_format max_size_bytes st) ->
   width image' = width (image st) /\ height image' = height (image st))
  /\ (In ShrinkPass (loop_trace img_format max_size_bytes st) ->
      min_dimension <= width image' < width (image st)
      /\ min_dimension <= height image' < height (image st)).
Proof.
  intros Hloop.
  pose proof (loop_runs_trace img_format max_size_bytes st) as Hrun.
  rewrite Hloop in Hrun.
  destruct (encoded_size _ _ _ _ _ _ Hrun) as [(Hno & Hsize)|(Hin & Hsize)].
  - split; [done|]. by intros Hin.
  - split; [|done]. by intros Hno.
Qed.

(** X4. An image with a side below 223 pixels is never resized: its run
    has quality passes only (and none when the source is not JPEG). *)
Theorem small_image_is_never_resized (img_format : option string)
    (max_size_bytes : Z) (st : loop_state) :
  width (image st) < 223 \/ height (image st) < 223 ->
  exists lowered : nat,
    loop_trace img_format max_size_bytes st = repeat QualityPass lowered
    /\ (is_jpeg img_format = false -> lowered = 0%nat).
Proof.
  intros Hsmall.
  pose proof (loop_runs_trace img_format max_size_bytes st) as Hrun.
  induction Hrun as [st i b H|st H|st e H|st st' tr ex H _ IH|st st' tr ex H _ IH];
    try (exists 0%nat; by split).
  - apply lower_quality_inv in H as (Hj & _ & ->). simpl in IH.
    destruct (IH Hsmall) as (n & -> & _).
    exists (S n). split; [done|]. intros Hnj. congruence.
  - apply shrink_inv in H as (_ & _ & Hw & Hh & Hwf & Hhf).
    rewrite Hw in Hwf. rewrite Hh in Hhf.
    destruct Hsmall as [Hs|Hs]; apply small_dimension_shrinks_below_floor in Hs; lia.
Qed.

(** X5. With a budget of zero or less nothing is ever returned: an
    encoder writes at least one byte, and no byte fits. *)
Theorem nonpositive_budget_never_encodes (file : UploadedFile) (max_size_mb : Z) :
  max_size_mb <= 0 ->
  fst (convert_image_to_base64 file max_size_mb) = None.
Proof.
  intros Hbudget.
  destruct (convert_image_to_base64 file max_size_mb) as [[data|] shown] eqn:Hret;
    [|done].
  destruct (convert_image_to_base64_returned _ _ _ _ Hret)
    as (image & final & image' & img_bytes & _ & Hfinal & Hfits & _).
  apply fits_integers in Hfits.
  apply break_saved, Image_save_nonempty in Hfinal.
  destruct img_bytes as [|b rest]; [done|].
  unfold tell in Hfits. simpl length in Hfits. lia.
Qed.

(** X6. The budget test on the raw size: bytes fit a budget exactly when
    there are at most three quarters of it (rounded down); for the default
    budget of 5 MiB that is 3932160 bytes. *)
Theorem raw_size_threshold (img_bytes : list byte) (max_size_bytes : Z) :
  (fits img_bytes max_size_bytes = true <-> tell img_bytes <= 3 * max_size_bytes / 4)
  /\ (fits img_bytes (default_max_size_mb * 1024 * 1024) = true
      <-> tell img_bytes <= 3932160).
Proof.
  split.
  - rewrite fits_integers. split; intros H.
    + apply Z.div_le_lower_bound; lia.
    + pose proof (Z.mul_div_le (3 * max_size_bytes) 4). lia.
  - rewrite fits_integers. unfold default_max_size_mb. lia.
Qed.

End NormalizerPasses.

Module NormalizerPassesExamples.
Import Example.

(** The loop at its start on three decoded images. *)
Definition webp_start : @loop_state codec :=
  @mkState codec (mkImage (Some "WEBP") "RGBA" 800 600 8) 90.
Definition jpeg_start : @loop_state codec :=
  @mkState codec (mkImage (Some "JPEG") "RGB" 1000 800 8) 90.
Definition small_start : @loop_state codec :=
  @mkState codec (mkImage (Some "JPEG") "RGB" 210 300 8) 90.

(** The 800x600 WEBP under a budget of zero: ten shrinking passes down
    to 276x207, no quality pass. *)
Lemma non_jpeg_only_shrinks_witness :
  is_jpeg (Some "WEBP") = false
  /\ loop_trace (Some "WEBP") 0 webp_start
     = repeat ShrinkPass 10.
Proof.
  split; [reflexivity|].
  destruct (non_jpeg_only_shrinks (PIL := codec) (Some "WEBP") 0
              webp_start eq_refl)
    as [shrunk Htr].
  rewrite Htr. f_equal.
  apply (f_equal (@length pass)) in Htr. rewrite repeat_length in Htr.
  rewrite <- Htr. vm_compute. reflexivity.
Defined.

(** The 1000x800 JPEG under a budget of three bytes is encoded at
    810x648 after seven quality passes and two shrinking passes. *)
Lemma jpeg_shrinks_after_seven_quality_passes_witness :
  loop_trace (Some "JPEG") 3 jpeg_start
  = repeat QualityPass 7 ++ repeat ShrinkPass 2
  /\ 7%nat = 7%nat.
Proof.
  assert (loop_trace (Some "JPEG") 3 jpeg_start
          = repeat QualityPass 7 ++ repeat ShrinkPass 2) as Htr
    by (vm_compute; reflexivity).
  split; [exact Htr|].
  symmetry.
  exact (jpeg_shrinks_after_seven_quality_passes (PIL := codec) (Some "JPEG") 3
           jpeg_start 7 2 eq_refl eq_refl Htr ltac:(lia)).
Defined.

Lemma encoded_image_size_witness :
  exists (image' : Image Px) (img_bytes : list byte),
    loop (Some "JPEG") 3 jpeg_start
    = Encoded image' img_bytes
    /\ min_dimension <= width image' < 1000
    /\ min_dimension <= height image' < 800.
Proof.
  destruct (loop (Some "JPEG") 3 jpeg_start)
    as [image' img_bytes| |e] eqn:Hloop.
  - exists image', img_bytes. split; [reflexivity|].
    apply (encoded_image_size (PIL := codec) _ _ _ _ _ Hloop).
    vm_compute. tauto.
  - exfalso. vm_compute in Hloop. discriminate Hloop.
  - exfalso. vm_compute in Hloop. discriminate Hloop.
Defined.

(** A 210x300 JPEG that never fits: seven quality passes, then it gives
    up without a resize. *)
Lemma small_image_is_never_resized_witness :
  exists lowered : nat,
    loop_trace (Some "JPEG") 0 small_start
    = repeat QualityPass lowered
    /\ (is_jpeg (Some "JPEG") = false -> lowered = 0%nat).
Proof.
  apply (small_image_is_never_resized (PIL := codec)). simpl. lia.
Defined.

Lemma nonpositive_budget_never_encodes_witness :
  fst (convert_image_to_base64 small_jpeg 0) = None.
Proof.
  apply (nonpositive_budget_never_encodes (PIL := codec)). lia.
Defined.

End NormalizerPassesExamples.

(** * Further properties of the message assembler *)

Section AssemblerAttachments.
Context `{PIL : Imaging} `{PD : Pandas}.

(** The two spreadsheet MIME types are not image types. *)
Lemma is_excel_not_image (mime_type : string) :
  is_excel mime_type = true -> String.prefix "image/" mime_type = false.
Proof.
  unfold is_excel. intros H.
  apply orb_prop in H as [H|H]; apply String.eqb_eq in H; by subst.
Qed.

(** The last reference of a list denotes the last message. *)
Lemma last_message_denoted (σ : store) (messages : list loc) (ms : list message)
    (last_message : loc) (d : message) :
  view σ messages = Some ms ->
  last messages = Some last_message ->
  σ !! last_message = Some d ->
  ms !! pred (length ms) = Some d /\ nonempty ms = true.
Proof.
  intros Hms Hlast Hd.
  apply view_Some in Hms as [Hlen Hms].
  rewrite last_lookup in Hlast.
  apply lookup_lt_Some in Hlast as Hlt.
  destruct (lookup_lt_is_Some_2 ms (pred (length messages)) ltac:(lia)) as [d' Hd'].
  rewrite (Hms _ _ _ Hlast Hd') in Hd. injection Hd as ->.
  rewrite <- Hlen. split; [done|].
  destruct ms; [by rewrite lookup_nil in Hd'|done].
Qed.

Lemma nonempty_view (σ : store) (messages : list loc) (ms : list message) :
  view σ messages = Some ms -> messages <> [] -> nonempty ms = true.
Proof.
  intros Hms Hne. apply view_Some in Hms as [Hlen _]. by destruct messages, ms.
Qed.

(** Putting an attachment into messages that end with another role than
    [user] changes nothing. *)
Lemma with_attachment_not_user attachment ms d :
  ms !! pred (length ms) = Some d -> is_user d = false ->
  with_attachment attachment ms = ms.
Proof.
  intros Hd Huser. unfold with_attachment.
  apply list_eq. intros i.
  destruct (decide (pred (length ms) = i)) as [<-|Hne].
  - rewrite list_lookup_alter_eq, Hd. simpl. unfold rebound. by rewrite Huser.
  - by rewrite list_lookup_alter_ne.
Qed.

(** X7. When the history ends with a user message of content [c] and the
    attached file has a spreadsheet MIME type and is read into the table
    text [df_string], the last prepared message has the content
    [[text block of c; text block of the fenced table text]] and nothing
    is shown. *)
Theorem assembler_injects_spreadsheet (σ : store) (messages : list loc)
    (file : UploadedFile) (last_message : loc) (c : Content)
    (df : DataFrame) (df_string : string) :
  valid_refs σ messages ->
  last messages = Some last_message ->
  σ !! last_message = Some (mkMessage "user" c) ->
  is_excel (type file) = true ->
  read_excel file = Returns df ->
  to_string df false = Returns df_string ->
  exists (out : list loc) (σ' : store) (last_prepared : loc),
    prepare_messages σ messages (Some file) = Some (out, σ', [])
    /\ length out = length messages
    /\ last out = Some last_prepared
    /\ σ' !! last_prepared
       = Some (mkMessage "user"
                 (Blocks [text_block c; text_block (Text (fenced df_string))])).
Proof.
  intros Hvalid Hlast Hd Hexcel Hread Hstring.
  destruct (prepare_messages_spec σ messages (Some file) Hvalid)
    as (ms & out & σ' & Hms & Hret & _ & Hshares & Hview).
  destruct (last_message_denoted _ _ _ _ _ Hms Hlast Hd) as [Hmslast Hne].
  pose proof (Forall2_length _ _ _ Hshares) as Hlen'.
  apply view_Some in Hms as [Hlen _].
  unfold assembled, attachment_of in Hret, Hview.
  rewrite Hne, (is_excel_not_image _ Hexcel), Hexcel, Hread, Hstring in Hret, Hview.
  simpl in Hret, Hview.
  apply view_Some in Hview as [_ Hview].
  assert (pred (length out) < length out)%nat as Hlt.
  { rewrite last_lookup in Hlast. apply lookup_lt_Some in Hlast. lia. }
  destruct (lookup_lt_is_Some_2 out _ Hlt) as [last_prepared Hprepared].
  exists out, σ', last_prepared. rewrite last_lookup.
  repeat split; [done|lia|done|].
  eapply Hview; [exact Hprepared|].
  unfold with_attachment. rewrite <- Hlen', Hlen.
  by rewrite list_lookup_alter_eq, Hmslast.
Qed.

(** X8. When the spreadsheet cannot be read (reading it or rendering it
    raises [e]), the prepared list denotes the history unchanged and the
    error is shown once. *)
Theorem assembler_spreadsheet_failure (σ : store) (messages : list loc)
    (file : UploadedFile) (e : exn) :
  valid_refs σ messages ->
  messages <> [] ->
  is_excel (type file) = true ->
  (read_excel file = Raises e
   \/ exists df, read_excel file = Returns df /\ to_string df false = Raises e) ->
  exists (ms : list message) (out : list loc) (σ' : store),
    view σ messages = Some ms
    /\ prepare_messages σ messages (Some file)
       = Some (out, σ', [st_error (excel_error_prefix +:+ e)])
    /\ view σ' out = Some ms.
Proof.
  intros Hvalid Hne Hexcel Hfail.
  destruct (prepare_messages_spec σ messages (Some file) Hvalid)
    as (ms & out & σ' & Hms & Hret & _ & _ & Hview).
  unfold assembled, attachment_of in Hret, Hview.
  rewrite (nonempty_view _ _ _ Hms Hne), (is_excel_not_image _ Hexcel), Hexcel
    in Hret, Hview.
  exists ms, out, σ'.
  destruct Hfail as [Hread|(df & Hread & Hstring)].
  - by rewrite Hread in Hret, Hview.
  - by rewrite Hread, Hstring in Hret, Hview.
Qed.

(** X9. When the history ends with a message of another role than [user],
    the attachment is not put anywhere, whatever the file: the prepared
    list denotes the history unchanged and ends with the very dict the
    history ends with. *)
Theorem assembler_drops_attachment_after_other_role (σ : store)
    (messages : list loc) (uploaded_file : option UploadedFile)
    (last_message : loc) (d : message) :
  valid_refs σ messages ->
  last messages = Some last_message ->
  σ !! last_message = Some d ->
  is_user d = false ->
  exists (ms : list message) (out : list loc) (σ' : store) (shown : list st_event),
    view σ messages = Some ms
    /\ prepare_messages σ messages uploaded_file = Some (out, σ', shown)
    /\ view σ' out = Some ms
    /\ last out = Some last_message.
Proof.
  intros Hvalid Hlast Hd Huser.
  destruct (prepare_messages_spec σ messages uploaded_file Hvalid)
    as (ms & out & σ' & Hms & Hret & _ & Hshares & Hview).
  destruct (last_message_denoted _ _ _ _ _ Hms Hlast Hd) as [Hmslast Hne].
  exists ms, out, σ', (snd (assembled ms uploaded_file)).
  split; [done|]. split; [done|]. split.
  - rewrite Hview. f_equal. unfold assembled.
    destruct uploaded_file as [file|]; [|done]. rewrite Hne.
    destruct (attachment_of file) as [[attachment|] shown]; [|done].
    simpl. by eapply with_attachment_not_user.
  - rewrite last_lookup in Hlast |- *.
    rewrite <- (Forall2_length _ _ _ Hshares).
    destruct (Forall2_lookup_l _ _ _ _ _ Hshares Hlast) as (l' & Hl' & d' & Hd' & Hkind).
    assert (d' = d) as -> by congruence.
    rewrite Huser in Hkind. by subst l'.
Qed.

(** X10. A file whose MIME type is neither an image type nor a
    spreadsheet type is ignored: the prepared list denotes the history
    unchanged and nothing is shown. *)
Theorem assembler_ignores_other_types (σ : store) (messages : list loc)
    (file : UploadedFile) :
  valid_refs σ messages ->
  String.prefix "image/" (type file) = false ->
  is_excel (type file) = false ->
  exists (ms : list message) (out : list loc) (σ' : store),
    view σ messages = Some ms
    /\ prepare_messages σ messages (Some file) = Some (out, σ', [])
    /\ view σ' out = Some ms.
Proof.
  intros Hvalid Himage Hexcel.
  destruct (prepare_messages_spec σ messages (Some file) Hvalid)
    as (ms & out & σ' & Hms & Hret & _ & _ & Hview).
  unfold assembled, attachment_of in Hret, Hview.
  rewrite Himage, Hexcel in Hret, Hview.
  exists ms, out, σ'. by destruct (nonempty ms).
Qed.

(** X11. When the image is not encoded, for whatever reason
    ([convert_image_to_base64] returns [None]: the file does not decode, a
    save fails, or the image cannot be compressed), the prepared list
    denotes the history unchanged and exactly what
    [convert_image_to_base64] showed is shown. *)
Theorem assembler_failed_encoding_is_text_only (σ : store) (messages : list loc)
    (file : UploadedFile) :
  valid_refs σ messages ->
  messages <> [] ->
  String.prefix "image/" (type file) = true ->
  fst (convert_image_to_base64 file default_max_size_mb) = None ->
  exists (ms : list message) (out : list loc) (σ' : store),
    view σ messages = Some ms
    /\ prepare_messages σ messages (Some file)
       = Some (out, σ', snd (convert_image_to_base64 file default_max_size_mb))
    /\ view σ' out = Some ms.
Proof.
  intros Hvalid Hne Himage Hnone.
  destruct (prepare_messages_spec σ messages (Some file) Hvalid)
    as (ms & out & σ' & Hms & Hret & _ & _ & Hview).
  unfold assembled, attachment_of in Hret, Hview.
  rewrite (nonempty_view _ _ _ Hms Hne), Himage in Hret, Hview.
  destruct (convert_image_to_base64 file default_max_size_mb) as [[data|] shown];
    [discriminate|].
  by exists ms, out, σ'.
Qed.

End AssemblerAttachments.

Module AssemblerAttachmentsExamples.
Import Example AssemblerExamples.

(** A workbook with an odd number of cells, and a text file. *)
Definition broken_workbook : UploadedFile :=
  mkUploadedFile "b.xls" "application/vnd.ms-excel" ["a"]%byte.
Definition notes : UploadedFile := mkUploadedFile "notes.txt" "text/plain" ["n"]%byte.

(** A history that ends with the assistant. *)
Definition answered : list message :=
  [mkMessage "user" (Text "describe"); mkMessage "assistant" (Text "a cat")].

Lemma answered_valid : valid_refs answered [0%nat; 1%nat].
Proof. repeat (apply Forall_cons; split; [simpl; lia|]). apply Forall_nil_2. Defined.

(** Scenario C: the two rows of the workbook, fenced, after the text. *)
Lemma assembler_injects_spreadsheet_witness :
  exists (out : list loc) (σ' : store) (last_prepared : loc),
    prepare_messages one_turn [0%nat] (Some workbook) = Some (out, σ', [])
    /\ length out = 1%nat
    /\ last out = Some last_prepared
    /\ σ' !! last_prepared
       = Some (mkMessage "user"
                 (Blocks [text_block (Text "describe");
                          text_block (Text (fenced ("a  1" +:+ newline +:+ "b  2")))])).
Proof.
  exact (assembler_injects_spreadsheet (PIL := codec) (PD := sheets) one_turn [0%nat]
           workbook 0%nat (Text "describe") [("a", "1"); ("b", "2")]
           ("a  1" +:+ newline +:+ "b  2")
           one_turn_valid eq_refl eq_refl eq_refl eq_refl eq_refl).
Defined.

Lemma assembler_spreadsheet_failure_witness :
  exists (ms : list message) (out : list loc) (σ' : store),
    view one_turn [0%nat] = Some ms
    /\ prepare_messages one_turn [0%nat] (Some broken_workbook)
       = Some (out, σ', [st_error (excel_error_prefix +:+ "file is not a workbook")])
    /\ view σ' out = Some ms.
Proof.
  apply (assembler_spreadsheet_failure (PIL := codec) (PD := sheets) one_turn [0%nat]
           broken_workbook "file is not a workbook" one_turn_valid);
    [discriminate|reflexivity|by left].
Defined.

Lemma assembler_drops_attachment_after_other_role_witness :
  exists (ms : list message) (out : list loc) (σ' : store) (shown : list st_event),
    view answered [0%nat; 1%nat] = Some ms
    /\ prepare_messages answered [0%nat; 1%nat] (Some small_jpeg) = Some (out, σ', shown)
    /\ view σ' out = Some ms
    /\ last out = Some 1%nat.
Proof.
  exact (assembler_drops_attachment_after_other_role (PIL := codec) (PD := sheets)
           answered [0%nat; 1%nat] (Some small_jpeg) 1%nat
           (mkMessage "assistant" (Text "a cat")) answered_valid eq_refl eq_refl eq_refl).
Defined.

Lemma assembler_ignores_other_types_witness :
  exists (ms : list message) (out : list loc) (σ' : store),
    view one_turn [0%nat] = Some ms
    /\ prepare_messages one_turn [0%nat] (Some notes) = Some (out, σ', [])
    /\ view σ' out = Some ms.
Proof.
  exact (assembler_ignores_other_types (PIL := codec) (PD := sheets) one_turn [0%nat]
           notes one_turn_valid eq_refl eq_refl).
Defined.

(** A file that is no image: the turn goes out as text and the decoding
    error is shown. *)
Lemma assembler_failed_encoding_is_text_only_witness :
  exists (ms : list message) (out : list loc) (σ' : store),
    view one_turn [0%nat] = Some ms
    /\ prepare_messages one_turn [0%nat] (Some corrupt)
       = Some (out, σ', snd (convert_image_to_base64 corrupt default_max_size_mb))
    /\ view σ' out = Some ms.
Proof.
  apply (assembler_failed_encoding_is_text_only (PIL := codec) (PD := sheets)
           one_turn [0%nat] corrupt one_turn_valid);
    [discriminate|reflexivity|vm_compute; reflexivity].
Defined.

End AssemblerAttachmentsExamples.

(** * Properties of the script *)

Section ScriptProperties.
Context `{PIL : Imaging} `{PD : Pandas} `{SDK : AnthropicSDK}.

(** Appending a new dict and its reference appends its value to what the
    list denotes. *)
Lemma view_snoc (σ : store) (refs : list loc) (ms : list message) (d : message) :
  view σ refs = Some ms ->
  view (σ ++ [d]) (refs ++ [length σ]) = Some (ms ++ [d])
  /\ valid_refs (σ ++ [d]) (refs ++ [length σ]).
Proof.
  intros Hms. unfold view in *. rewrite mapM_Some in Hms.
  split.
  - rewrite mapM_Some. apply Forall2_app.
    + eapply Forall2_impl; [exact Hms|]. intros l d' Hl. simpl in *.
      rewrite lookup_app_l; [done|]. by eapply lookup_lt_Some.
    + constructor; [|constructor]. simpl.
      by rewrite lookup_app_r, Nat.sub_diag by lia.
  - apply Forall_app. split.
    + apply Forall2_Forall_l with (Q := fun l => (l < length (σ ++ [d]))%nat) in Hms;
        [done|].
      apply Forall_true. intros d' l Hl. rewrite length_app. simpl.
      apply lookup_lt_Some in Hl. lia.
    + apply Forall_singleton. rewrite length_app. simpl. lia.
Qed.

(** The turn of a prompt, on message values: the request is assembled
    from the history with the prompt as its last message, and the history
    becomes the old one, the prompt and the recorded reply. *)
Lemma chat_turn_spec (client : Anthropic.client) (σ : store) (messages : list loc)
    (file : option UploadedFile) (text : string) (ms : list message) :
  view σ messages = Some ms ->
  let asked := ms ++ [mkMessage "user" (Text text)] in
  let request := fst (assembled asked file) in
  let answer := stream_response client request in
  exists (σ' : store) (messages' : list loc),
    chat_turn client σ messages file text
    = Some (σ', messages', snd (assembled asked file) ++ snd answer)
    /\ view σ' messages' = Some (asked ++ recorded (fst answer))
    /\ (forall l d, σ !! l = Some d -> σ' !! l = Some d).
Proof.
  intros Hms asked request answer.
  destruct (view_snoc σ messages ms (mkMessage "user" (Text text)) Hms)
    as [Hasked Hvalid].
  destruct (prepare_messages_spec _ _ file Hvalid)
    as (ms1 & out & σ1 & Hms1 & Hret & Hframe & _ & Hview).
  assert (ms1 = asked) as -> by (unfold asked; congruence).
  pose proof (view_frame _ _ _ Hframe Hvalid) as Hsame. rewrite Hasked in Hsame.
  assert (forall l d, σ !! l = Some d -> σ1 !! l = Some d) as Hold.
  { intros l d Hd. apply lookup_lt_Some in Hd as Hlt.
    rewrite Hframe by (rewrite length_app; lia). by rewrite lookup_app_l. }
  unfold chat_turn. rewrite Hret, Hview. fold request. fold answer.
  destruct answer as [[reply|] shown'] eqn:Hanswer; simpl.
  - destruct (truthy reply) eqn:Htruthy.
    + destruct (view_snoc σ1 _ asked (mkMessage "assistant" (Text reply)) Hsame)
        as [Hfinal _].
      eexists _, _. split; [done|]. split; [done|].
      intros l d Hd. apply Hold in Hd as Hd1.
      rewrite lookup_app_l; [done|]. by eapply lookup_lt_Some.
    + eexists _, _. split; [done|]. rewrite app_nil_r. by split.
  - eexists _, _. split; [done|]. rewrite app_nil_r. by split.
Qed.

(** X12. A run with a working client and a prompt records the turn: the
    request sent is the history with the prompt as its last message,
    assembled with the attached file; the history becomes the old one
    followed by the prompt, as text, and by the reply when it is a
    non-empty text; no stored dict changes; what the assembler and then
    the client showed is shown. *)
Theorem turn_extends_history (s : session) (w : widgets)
    (client : Anthropic.client) (text : string) (ms : list message) :
  transcript s = Some ms ->
  clear w = false ->
  truthy (api_key w) = true ->
  Anthropic_new (api_key w) = Returns client ->
  prompt w = Some text ->
  truthy text = true ->
  let asked := ms ++ [mkMessage "user" (Text text)] in
  let answer := stream_response client (fst (assembled asked (uploaded_file w))) in
  exists s' : session,
    main s w = Some (s', snd (assembled asked (uploaded_file w)) ++ snd answer, Finished)
    /\ transcript s' = Some (asked ++ recorded (fst answer))
    /\ (forall l d, dicts s !! l = Some d -> dicts s' !! l = Some d).
Proof.
  intros Hms Hclear Hkey Hclient Hprompt Htext asked answer.
  destruct (chat_turn_spec client (dicts s) (default [] (history s))
              (uploaded_file w) text ms Hms)
    as (σ' & messages' & Hturn & Hview & Hold).
  exists (mkSession σ' (Some messages')).
  unfold main, init_anthropic_client.
  rewrite Hclear, Hkey, Hclient, Hprompt, Htext. simpl.
  fold asked in Hturn. fold answer in Hturn. rewrite Hturn.
  by repeat split.
Qed.

(** X13. When the endpoint call of a turn fails, the prompt stays in the
    history without a reply, and the error is the last message shown. *)
Theorem endpoint_error_keeps_prompt (s : session) (w : widgets)
    (client : Anthropic.client) (text : string) (ms : list message) (e : exn) :
  transcript s = Some ms ->
  clear w = false ->
  truthy (api_key w) = true ->
  Anthropic_new (api_key w) = Returns client ->
  prompt w = Some text ->
  truthy text = true ->
  let asked := ms ++ [mkMessage "user" (Text text)] in
  Anthropic.messages_create client CLAUDE_MODEL 4096
    (fst (assembled asked (uploaded_file w))) = Raises e ->
  exists s' : session,
    main s w = Some (s', snd (assembled asked (uploaded_file w))
                         ++ [st_error (response_error_prefix +:+ e)], Finished)
    /\ transcript s' = Some asked.
Proof.
  intros Hms Hclear Hkey Hclient Hprompt Htext asked Hraise.
  destruct (chat_turn_spec client (dicts s) (default [] (history s))
              (uploaded_file w) text ms Hms)
    as (σ' & messages' & Hturn & Hview & _).
  exists (mkSession σ' (Some messages')).
  unfold main, init_anthropic_client.
  rewrite Hclear, Hkey, Hclient, Hprompt, Htext. simpl.
  fold asked in Hturn, Hview. rewrite Hturn.
  unfold stream_response in *. rewrite Hraise in *. simpl in *.
  rewrite app_nil_r in Hview. by split.
Qed.

(** X14. Whatever a run does, the history stays plain: when every stored
    message is a non-empty text of role user or assistant before a run,
    so is every stored message after it. The blocks built for a request
    are never stored. *)
Theorem history_stays_plain (s s' : session) (w : widgets) (ms : list message)
    (shown : list st_event) (ending : script_end) :
  transcript s = Some ms ->
  Forall plain ms ->
  main s w = Some (s', shown, ending) ->
  exists ms', transcript s' = Some ms' /\ Forall plain ms'.
Proof.
  intros Hms Hplain Hmain. unfold main in Hmain.
  destruct (clear w).
  { injection Hmain as <- _ _. by exists []. }
  destruct (truthy (api_key w)); [|injection Hmain as <- _ _; by exists ms].
  destruct (init_anthropic_client (api_key w)) as [[client|] shown0];
    [|injection Hmain as <- _ _; by exists ms].
  destruct (prompt w) as [text|]; [|injection Hmain as <- _ _; by exists ms].
  destruct (truthy text) eqn:Htext; [|injection Hmain as <- _ _; by exists ms].
  destruct (chat_turn_spec client (dicts s) (default [] (history s))
              (uploaded_file w) text ms Hms)
    as (σ' & messages' & Hturn & Hview & _).
  rewrite Hturn in Hmain. injection Hmain as <- _ _.
  eexists. split; [exact Hview|].
  apply Forall_app. split; [apply Forall_app; split; [done|]|].
  - apply Forall_singleton. split; [by left|]. by exists text.
  - unfold recorded.
    destruct (fst (stream_response client _)) as [reply|]; [|constructor].
    destruct (truthy reply) eqn:Hreply; [|constructor].
    apply Forall_singleton. split; [by right|]. by exists reply.
Qed.

(** X15. Without a client nothing is recorded: when the key field is
    empty, or the client cannot be made from the key, the run stops after
    showing one message, and the history is what it was, even when a
    prompt was entered. *)
Theorem run_without_client_drops_prompt (s : session) (w : widgets) :
  clear w = false ->
  truthy (api_key w) = false \/ (exists e, Anthropic_new (api_key w) = Raises e) ->
  exists event : st_event,
    main s w = Some (mkSession (dicts s) (Some (default [] (history s))),
                     [event], Stopped)
    /\ transcript (mkSession (dicts s) (Some (default [] (history s)))) = transcript s.
Proof.
  intros Hclear Hno. unfold main, init_anthropic_client. rewrite Hclear.
  destruct (truthy (api_key w)) eqn:Hkey.
  - destruct Hno as [?|[e He]]; [done|]. rewrite He. simpl. by eexists.
  - by eexists.
Qed.

(** The attachment goes into the message that was appended last. *)
Lemma with_attachment_snoc attachment (ms : list message) (d : message) :
  with_attachment attachment (ms ++ [d]) = ms ++ [rebound attachment d].
Proof.
  unfold with_attachment. rewrite length_app. simpl.
  rewrite alter_app_r_alt by lia.
  replace (pred (length ms + 1) - length ms)%nat with 0%nat by lia. done.
Qed.

(** X16. In a turn the attached image always goes out with the prompt:
    when the file is an image that is encoded to [data], the request sent
    is the history followed by the user message
    [[text block of the prompt; image block of data]], while the history
    records the prompt as text. *)
Theorem turn_sends_image_with_prompt (s : session) (w : widgets)
    (client : Anthropic.client) (text : string) (ms : list message)
    (file : UploadedFile) (data : string) (shown : list st_event) :
  transcript s = Some ms ->
  clear w = false ->
  truthy (api_key w) = true ->
  Anthropic_new (api_key w) = Returns client ->
  prompt w = Some text ->
  truthy text = true ->
  uploaded_file w = Some file ->
  String.prefix "image/" (type file) = true ->
  convert_image_to_base64 file default_max_size_mb = (Some data, shown) ->
  let request :=
    ms ++ [mkMessage "user"
             (Blocks [text_block (Text text);
                      image_block "base64" (type file) data])] in
  let answer := stream_response client request in
  exists s' : session,
    main s w = Some (s', shown ++ snd answer, Finished)
    /\ transcript s'
       = Some (ms ++ [mkMessage "user" (Text text)] ++ recorded (fst answer)).
Proof.
  intros Hms Hclear Hkey Hclient Hprompt Htext Hfile Himage Hconvert request answer.
  destruct (chat_turn_spec client (dicts s) (default [] (history s))
              (uploaded_file w) text ms Hms)
    as (σ' & messages' & Hturn & Hview & _).
  assert (assembled (ms ++ [mkMessage "user" (Text text)]) (uploaded_file w)
          = (request, shown)) as Hassembled.
  { unfold assembled, attachment_of. rewrite Hfile, Himage, Hconvert.
    rewrite (convert_image_to_base64_truthy _ _ _ _ Hconvert).
    rewrite with_attachment_snoc. by destruct ms. }
  rewrite Hassembled in Hturn, Hview. simpl in Hturn, Hview.
  exists (mkSession σ' (Some messages')).
  unfold main, init_anthropic_client.
  rewrite Hclear, Hkey, Hclient, Hprompt, Htext. simpl.
  rewrite Hturn. split; [done|].
  unfold transcript. simpl. rewrite Hview. by rewrite <- app_assoc.
Qed.

End ScriptProperties.

Module ScriptExamples.
Import Example ExampleScript.

Definition describe_jpeg : widgets :=
  mkWidgets "sk-cat" (Some small_jpeg) false (Some "describe").
Definition describe_offline : widgets :=
  mkWidgets "sk-down" (Some small_jpeg) false (Some "describe").
Definition describe_without_key : widgets :=
  mkWidgets "" (Some small_jpeg) false (Some "describe").

(** A third message with a JPEG, answered: two messages are appended, the
    prompt as text. *)
Lemma turn_extends_history_witness :
  exists s' : session,
    main two_messages describe_jpeg = Some (s', [], Finished)
    /\ transcript s'
       = Some [mkMessage "user" (Text "hi"); mkMessage "assistant" (Text "hello");
               mkMessage "user" (Text "describe");
               mkMessage "assistant" (Text "It is a cat.")].
Proof.
  destruct (turn_extends_history (SDK := sdk) two_messages describe_jpeg
              (Some ["It is a cat."; "Anything else?"]) "describe" _
              eq_refl eq_refl eq_refl eq_refl eq_refl eq_refl)
    as (s' & Hmain & Htranscript & _).
  exists s'. split; [exact Hmain|exact Htranscript].
Defined.

(** The same prompt with an endpoint that fails. *)
Lemma endpoint_error_keeps_prompt_witness :
  exists s' : session,
    main two_messages describe_offline
    = Some (s', [st_error (response_error_prefix +:+ "authentication_error")], Finished)
    /\ transcript s'
       = Some [mkMessage "user" (Text "hi"); mkMessage "assistant" (Text "hello");
               mkMessage "user" (Text "describe")].
Proof.
  destruct (endpoint_error_keeps_prompt (SDK := sdk) two_messages describe_offline
              None "describe" _ "authentication_error"
              eq_refl eq_refl eq_refl eq_refl eq_refl eq_refl eq_refl)
    as (s' & Hmain & Htranscript).
  exists s'. split; [exact Hmain|exact Htranscript].
Defined.

(** The request of that turn carries the JPEG. *)
Lemma turn_sends_image_with_prompt_witness :
  exists (data : string) (s' : session),
    convert_image_to_base64 small_jpeg default_max_size_mb = (Some data, [])
    /\ main two_messages describe_jpeg
       = Some (s', snd (stream_response (API := endpoint)
                          (Some ["It is a cat."; "Anything else?"])
                          [mkMessage "user" (Text "hi");
                           mkMessage "assistant" (Text "hello");
                           mkMessage "user"
                             (Blocks [text_block (Text "describe");
                                      image_block "base64" "image/jpeg" data])]),
               Finished)
    /\ transcript s'
       = Some [mkMessage "user" (Text "hi"); mkMessage "assistant" (Text "hello");
               mkMessage "user" (Text "describe");
               mkMessage "assistant" (Text "It is a cat.")].
Proof.
  assert (exists data, convert_image_to_base64 small_jpeg default_max_size_mb
                       = (Some data, [])) as [data Hconvert]
    by (vm_compute; eexists; reflexivity).
  destruct (turn_sends_image_with_prompt (SDK := sdk) two_messages describe_jpeg
              (Some ["It is a cat."; "Anything else?"]) "describe" _ small_jpeg data []
              eq_refl eq_refl eq_refl eq_refl eq_refl eq_refl eq_refl eq_refl Hconvert)
    as (s' & Hmain & Htranscript).
  exists data, s'. split; [exact Hconvert|]. split; [exact Hmain|exact Htranscript].
Defined.

Lemma history_stays_plain_witness :
  exists (s' : session) (shown : list st_event) (ending : script_end)
         (ms' : list message),
    main two_messages describe_jpeg = Some (s', shown, ending)
    /\ transcript s' = Some ms' /\ Forall plain ms'.
Proof.
  destruct (main two_messages describe_jpeg) as [[[s' shown] ending]|] eqn:Hmain.
  - destruct (history_stays_plain (SDK := sdk) two_messages s' describe_jpeg _ shown ending
                eq_refl) as (ms' & Htranscript & Hplain); [|exact Hmain|].
    + apply Forall_cons. split; [split; [by left|by exists "hi"]|].
      apply Forall_singleton. split; [by right|by exists "hello"].
    + by exists s', shown, ending, ms'.
  - exfalso. vm_compute in Hmain. discriminate Hmain.
Defined.

Lemma run_without_client_drops_prompt_witness :
  exists event : st_event,
    main two_messages describe_without_key = Some (two_messages, [event], Stopped).
Proof.
  destruct (run_without_client_drops_prompt (SDK := sdk) two_messages
              describe_without_key eq_refl (or_introl eq_refl))
    as (event & Hmain & _).
  by exists event.
Defined.

End ScriptExamples.
